(** * web-storage: a namespaced, JSON-serialising facade over a Storage

    Shallow embedding of [src/memory-storage.ts] (class MemoryStorage) and
    [src/web-storage.ts] (class WebStorage), and the properties of the
    namespace partitioning, the key filter, the fault policy and the
    iteration that the specification states about them.

    Conventions of the embedding:
    - a JavaScript string is the list of its UTF-16 code units;
    - [string | null] is [option jsstring], [None] being [null];
    - a call that can throw, and an [async] method whose promise can be
      rejected, returns a [completion]: [Return v] or [Throw e];
    - mutable objects are passed as explicit states: an operation that
      changes the store returns the new store. *)

From Stdlib Require Import List NArith ZArith Bool Lia String Ascii.
Import ListNotations.

Set Implicit Arguments.

(** ** JavaScript strings *)

Definition char16 := N.
Definition jsstring := list char16.

(** The string literal of the source, for ASCII text. *)
Definition js (s : string) : jsstring :=
  List.map N_of_ascii (list_ascii_of_string s).

Definition slash : char16 := 47%N.

Fixpoint jsstring_eqb (a b : jsstring) : bool :=
  match a, b with
  | [], [] => true
  | x :: a', y :: b' => N.eqb x y && jsstring_eqb a' b'
  | _, _ => false
  end.

(** [String.prototype.startsWith]. *)
Fixpoint startsWith (s prefix : jsstring) {struct prefix} : bool :=
  match prefix, s with
  | [], _ => true
  | p :: prefix', c :: s' => N.eqb c p && startsWith s' prefix'
  | _ :: _, [] => false
  end.

(** [String.prototype.substr] with a start inside [0 .. length] and no
    length argument: the rest of the string from [start] on. *)
Definition substr (s : jsstring) (start : nat) : jsstring := skipn start s.

(** [ToString] of a [string | null], as a template literal, a property
    access and [RegExp.prototype.test] apply it to their argument. *)
Definition ToString (v : option jsstring) : jsstring :=
  match v with
  | Some s => s
  | None => js "null"
  end.

(** The four line terminators, which [.] does not match in a pattern
    without the [s] flag: LF, CR, LS and PS. *)
Definition lineTerminator (c : char16) : bool :=
  (N.eqb c 10 || N.eqb c 13 || N.eqb c 8232 || N.eqb c 8233)%bool.

Definition dot (c : char16) : bool := negb (lineTerminator c).

(** [new RegExp('.+\\/.+').test(key)]: the pattern [.+\/.+] is not
    anchored, so the test looks for a slash anywhere with a run of [.]
    characters right before it and right after it; one character on each
    side is as good as a run (see [RegExp_test_matches]). *)
Fixpoint RegExp_test (key : jsstring) : bool :=
  match key with
  | c :: ((d :: e :: _) as rest) =>
      (dot c && N.eqb d slash && dot e) || RegExp_test rest
  | _ => false
  end.

(** ** Completions *)

Inductive exn : Type :=
| QuotaExceededError
| TypeError
| SyntaxError.

Inductive completion (A : Type) : Type :=
| Return (a : A)
| Throw (e : exn).

Arguments Return {A} a.
Arguments Throw {A} e.

Definition bind {A B} (c : completion A) (k : A -> completion B) : completion B :=
  match c with
  | Return a => k a
  | Throw e => Throw e
  end.

Notation "x <- c ;; k" := (bind c (fun x => k))
  (at level 61, c at next level, right associativity).

(** [try { body } catch (exception) { handler }]. *)
Definition try_catch {A} (body : completion A) (handler : exn -> completion A)
  : completion A :=
  match body with
  | Return a => Return a
  | Throw e => handler e
  end.

(** ** The Storage interface, as WebStorage uses it *)

Module Storage.

(** [key] is typed [string] in the interface.  [removeItem] alone takes a
    [string | null]: [WebStorage.clear] hands on what [key(index)] gave
    it, and that can be [null]. *)
Class api (S : Type) : Type := {
  length : S -> nat;
  clear : S -> S;
  getItem : S -> jsstring -> option jsstring;
  key : S -> Z -> option jsstring;
  removeItem : S -> option jsstring -> S;
  setItem : S -> jsstring -> jsstring -> completion S
}.

End Storage.

(** ** JSON, the serialisation service *)

Module JSON.

(** [stringify value] is the text that reaches [setItem]; [parse] reads
    the text that [getItem] gave.  Both can throw: [stringify] a
    TypeError (a circular structure, a BigInt), [parse] a SyntaxError.
    Where [JSON.stringify] gives [undefined] instead of a text, the text
    is what [JSON.parse] later reads in its place, the word [undefined]. *)
Class codec (V : Type) : Type := {
  stringify : V -> completion jsstring;
  parse : jsstring -> completion V
}.

End JSON.

(** ** memory-storage.ts *)

Module MemoryStorage.

(** [Map<string, string>]: the entries in insertion order, one per key. *)
Definition Map := list (jsstring * jsstring).

Fixpoint Map_has (m : Map) (k : jsstring) : bool :=
  match m with
  | [] => false
  | (k', _) :: m' => jsstring_eqb k' k || Map_has m' k
  end.

Fixpoint Map_get (m : Map) (k : jsstring) : option jsstring :=
  match m with
  | [] => None
  | (k', v) :: m' => if jsstring_eqb k' k then Some v else Map_get m' k
  end.

(** [Map.prototype.set]: an existing key keeps its place and takes the
    new value, a new key goes to the end. *)
Fixpoint Map_set (m : Map) (k v : jsstring) : Map :=
  match m with
  | [] => [(k, v)]
  | (k', v') :: m' =>
      if jsstring_eqb k' k then (k', v) :: m' else (k', v') :: Map_set m' k v
  end.

Fixpoint Map_delete (m : Map) (k : jsstring) : Map :=
  match m with
  | [] => []
  | (k', v') :: m' =>
      if jsstring_eqb k' k then Map_delete m' k else (k', v') :: Map_delete m' k
  end.

Definition Map_keys (m : Map) : list jsstring := List.map fst m.

Record t : Type := { internalItems : Map }.

(** [new Map(Object.entries(items))]; [items] is the list of entries
    that [Object.entries] gives. *)
Definition constructor (items : list (jsstring * jsstring)) : t :=
  {| internalItems := fold_left (fun m kv => Map_set m (fst kv) (snd kv)) items [] |}.

Definition length (s : t) : nat := List.length (internalItems s).

Definition items (s : t) : Map := internalItems s.

Definition clear (s : t) : t := {| internalItems := [] |}.

Definition hasItem (s : t) (key : jsstring) : bool :=
  Map_has (internalItems s) key.

Definition getItem (s : t) (key : jsstring) : option jsstring :=
  if Map_has (internalItems s) key then Map_get (internalItems s) key else None.

(** [k || null] at a string: the empty string is falsy. *)
Definition or_null (k : jsstring) : option jsstring :=
  match k with
  | [] => None
  | _ :: _ => Some k
  end.

(** [Array.from(this.internalItems.keys())[index] || null]; there is no
    element, hence [undefined], before 0 and from the size on. *)
Definition key (s : t) (index : Z) : option jsstring :=
  if (index <? 0)%Z then None
  else
    match nth_error (Map_keys (internalItems s)) (Z.to_nat index) with
    | Some k => or_null k
    | None => None
    end.

(** [this.internalItems.delete(key)]; the keys of the map are the
    strings [setItem] got, so [delete(null)] finds nothing. *)
Definition removeItem (s : t) (key : option jsstring) : t :=
  match key with
  | Some k => {| internalItems := Map_delete (internalItems s) k |}
  | None => s
  end.

Definition setItem (s : t) (key value : jsstring) : completion t :=
  Return {| internalItems := Map_set (internalItems s) key value |}.

End MemoryStorage.

#[export] Instance MemoryStorage_api : Storage.api MemoryStorage.t := {
  Storage.length := MemoryStorage.length;
  Storage.clear := MemoryStorage.clear;
  Storage.getItem := MemoryStorage.getItem;
  Storage.key := MemoryStorage.key;
  Storage.removeItem := MemoryStorage.removeItem;
  Storage.setItem := MemoryStorage.setItem
}.

(** ** web-storage.ts *)

Module WebStorage.

(** What [target[key]] or [this[key]] evaluates to behind the proxy: a
    value read from the store, or the member of the object that has that
    name (a method, an accessor's value, a field). *)
Inductive property (V : Type) : Type :=
| Stored (value : V)
| Member (name : jsstring).

Arguments Stored {V} value.
Arguments Member {V} name.

(** What [array[index]] gives for an array of [string | null]. *)
Inductive element : Type :=
| EString (s : jsstring)
| ENull
| EUndefined.

(** [key in target]: the fields the constructor sets, the members of
    [WebStorage.prototype] and those of [Object.prototype].  The proxy
    never adds a name to the target nor removes one. *)
Definition members : list jsstring :=
  List.map js
    [ "storage"; "currentNamespace";
      "constructor"; "hasNamespace"; "namespace"; "length"; "get"; "key";
      "keys"; "has"; "set"; "delete"; "clear"; "keyWithNamespace";
      "getStorageKeys"; "createProxy";
      "hasOwnProperty"; "isPrototypeOf"; "propertyIsEnumerable";
      "toLocaleString"; "toString"; "valueOf"; "__proto__";
      "__defineGetter__"; "__defineSetter__"; "__lookupGetter__";
      "__lookupSetter__" ]%string.

Definition key_in_target (key : jsstring) : bool :=
  existsb (jsstring_eqb key) members.

Section Facade.

Context {S : Type} {store : Storage.api S}.

Record t : Type := {
  storage : S;
  currentNamespace : option jsstring
}.

(** [this.currentNamespace = namespace || null]: an omitted namespace
    and the empty string are falsy. *)
Definition constructor (storage : S) (namespace : option jsstring) : t :=
  {| storage := storage;
     currentNamespace :=
       match namespace with
       | Some (c :: n) => Some (c :: n)
       | Some [] => None
       | None => None
       end |}.

Definition namespace (this : t) : option jsstring := currentNamespace this.

Definition hasNamespace (this : t) : bool :=
  match namespace this with
  | Some _ => true
  | None => false
  end.

Definition keyWithNamespace (this : t) (key : jsstring) : jsstring :=
  match namespace this with
  | Some ns => ns ++ slash :: key
  | None => key
  end.

(** [keyWithNamespace] at a key of [getStorageKeys], which can be
    [null]: the template literal writes it as text, the plain
    [return key] hands it on. *)
Definition keyWithNamespace_nullable (this : t) (key : option jsstring)
  : option jsstring :=
  match namespace this with
  | Some ns => Some (ns ++ slash :: ToString key)
  | None => key
  end.

(** The body of the loop of [getStorageKeys] at [key = storage.key(index)]:
    the keys it pushes.  [key.startsWith] on [null] is a TypeError;
    with no namespace [key] is only given to [test], which reads
    [null] as text. *)
Definition visit (this : t) (key : option jsstring)
  : completion (list (option jsstring)) :=
  match namespace this with
  | Some ns =>
      match key with
      | None => Throw TypeError
      | Some k =>
          if startsWith k (ns ++ [slash])
          then Return [Some (substr k (List.length ns + 1))]
          else Return []
      end
  | None =>
      if negb (RegExp_test (ToString key)) then Return [key] else Return []
  end.

(** [for (let index = 0; index < this.storage.length; index++)], with
    [count] the turns that are left. *)
Fixpoint getStorageKeys_loop (this : t) (count : nat) (index : Z)
         (keys : list (option jsstring))
  : completion (list (option jsstring)) :=
  match count with
  | O => Return keys
  | Datatypes.S count' =>
      pushed <- visit this (Storage.key (storage this) index) ;;
      getStorageKeys_loop this count' (index + 1)%Z (keys ++ pushed)
  end.

Definition getStorageKeys (this : t) : completion (list (option jsstring)) :=
  getStorageKeys_loop this (Storage.length (storage this)) 0%Z [].

Definition length (this : t) : completion nat :=
  keys <- getStorageKeys this ;; Return (List.length keys).

Definition key (this : t) (index : Z) : completion element :=
  keys <- getStorageKeys this ;;
  Return
    (if (index <? 0)%Z then EUndefined
     else
       match nth_error keys (Z.to_nat index) with
       | Some (Some k) => EString k
       | Some None => ENull
       | None => EUndefined
       end).

Definition keys (this : t) : completion (list (option jsstring)) :=
  getStorageKeys this.

Definition has (this : t) (key : jsstring) : completion bool :=
  Return
    (match Storage.getItem (storage this) (keyWithNamespace this key) with
     | Some _ => true
     | None => false
     end).

Definition delete (this : t) (key : jsstring) : completion (bool * t) :=
  try_catch
    (Return (true,
             {| storage := Storage.removeItem (storage this)
                             (Some (keyWithNamespace this key));
                currentNamespace := currentNamespace this |}))
    (fun _ => Return (false, this)).

Definition clear (this : t) : completion t :=
  keys <- getStorageKeys this ;;
  Return
    {| storage :=
         fold_left
           (fun s key => Storage.removeItem s (keyWithNamespace_nullable this key))
           keys (storage this);
       currentNamespace := currentNamespace this |}.

Section Values.

Context {V : Type} {json : JSON.codec V}.

Definition get (this : t) (key : jsstring) (defaultValue : V) : completion V :=
  match Storage.getItem (storage this) (keyWithNamespace this key) with
  | Some _ =>
      match Storage.getItem (storage this) (keyWithNamespace this key) with
      | Some text => JSON.parse text
      | None => JSON.parse (ToString None)
      end
  | None => Return defaultValue
  end.

(** A [setItem] that throws leaves the store as it was. *)
Definition set (this : t) (key : jsstring) (value : V) : completion (bool * t) :=
  try_catch
    (text <- JSON.stringify value ;;
     storage' <- Storage.setItem (storage this) (keyWithNamespace this key) text ;;
     Return (true, {| storage := storage';
                      currentNamespace := currentNamespace this |}))
    (fun _ => Return (false, this)).

(** The [get] trap of the proxy at a string key. *)
Definition proxy_get (this : t) (key : jsstring) : completion (property V) :=
  if negb (key_in_target key) then
    value <- JSON.parse
               (ToString (Storage.getItem (storage this)
                            (keyWithNamespace this key))) ;;
    Return (Stored value)
  else Return (Member key).

(** The steps of the generator after [keys] was taken: one pair
    [[this[key], key]] for each key, up to the first step that
    throws. *)
Fixpoint yields (this : t) (keys : list (option jsstring))
  : list (completion (property V * option jsstring)) :=
  match keys with
  | [] => []
  | key :: keys' =>
      match proxy_get this (ToString key) with
      | Return value => Return (value, key) :: yields this keys'
      | Throw e => [Throw e]
      end
  end.

(** [[Symbol.iterator]] and [[Symbol.asyncIterator]] have the same
    body. *)
Definition iterator (this : t)
  : completion (list (completion (property V * option jsstring))) :=
  keys <- getStorageKeys this ;; Return (yields this keys).

Definition asyncIterator (this : t)
  : completion (list (completion (property V * option jsstring))) :=
  keys <- getStorageKeys this ;; Return (yields this keys).

End Values.

End Facade.

Arguments t S : clear implicits.

End WebStorage.


(** ** The view of a facade *)

Section View.

Context {S : Type} {store : Storage.api S}.

(** The test [getStorageKeys] applies to a physical key that is a string:
    the prefix test with a namespace, the slash pattern without. *)
Definition in_view (this : WebStorage.t S) (physical : jsstring) : bool :=
  match WebStorage.namespace this with
  | Some ns => startsWith physical (ns ++ [slash])
  | None => negb (RegExp_test physical)
  end.

(** The logical key [getStorageKeys] pushes for a physical key of the view. *)
Definition decode (this : WebStorage.t S) (physical : jsstring) : jsstring :=
  match WebStorage.namespace this with
  | Some ns => substr physical (List.length ns + 1)
  | None => physical
  end.

(** [getStorageKeys] over the keys that [storage.key] gave, in order. *)
Fixpoint visit_all (this : WebStorage.t S) (physical : list (option jsstring))
         (keys : list (option jsstring)) : completion (list (option jsstring)) :=
  match physical with
  | [] => Return keys
  | key :: rest =>
      pushed <- WebStorage.visit this key ;;
      visit_all this rest (keys ++ pushed)
  end.

(** What [getStorageKeys] can list: a logical key whose physical key is in
    the view, and [null] without a namespace only. *)
Definition listed (this : WebStorage.t S) (key : option jsstring) : Prop :=
  match key with
  | Some k => in_view this (WebStorage.keyWithNamespace this k) = true
  | None => WebStorage.namespace this = None
  end.

(** The same facade over another state of the store. *)
Definition over (this : WebStorage.t S) (storage : S) : WebStorage.t S :=
  {| WebStorage.storage := storage;
     WebStorage.currentNamespace := WebStorage.currentNamespace this |}.

End View.

(** What a subject of the pattern [.+\/.+] looks like: a slash between two
    characters that are no line terminators. *)
Definition slash_shaped (key : jsstring) : Prop :=
  exists before c d after,
    key = before ++ c :: slash :: d :: after /\ dot c = true /\ dot d = true.

(** A value that the codec writes and reads back. *)
Definition lossless {V : Type} {json : JSON.codec V} (value : V) : Prop :=
  exists text, JSON.stringify value = Return text /\ JSON.parse text = Return value.

(** What a backing store owes its callers as a mapping: a value that was
    set is the value that is got, and removing a key leaves the others;
    [removed] is the key as the store reads it, [null] read as text or as
    no key at all. *)
Class StorageContract (S : Type) {store : Storage.api S} : Prop := {
  getItem_setItem :
    forall (s s' : S) (key value : jsstring),
      Storage.setItem s key value = Return s' ->
      Storage.getItem s' key = Some value;
  getItem_removeItem_other :
    forall (s : S) (removed : option jsstring) (key : jsstring),
      ToString removed <> key ->
      Storage.getItem (Storage.removeItem s removed) key = Storage.getItem s key
}.

Arguments StorageContract S {store}.

(** ** A store with a quota

    The stores of a browser are no part of the repository.  This one
    stands for them where a write has to fail: the same mapping, a key
    argument turned into a string, [key(index)] null past the end only,
    and [setItem] throwing once the entries would outgrow the quota. *)

Module QuotaStorage.

Record t : Type := {
  quota : nat;
  area : MemoryStorage.Map
}.

Definition size (m : MemoryStorage.Map) : nat :=
  fold_right (fun kv n => List.length (fst kv) + List.length (snd kv) + n) 0 m.

Definition length (s : t) : nat := List.length (area s).

Definition clear (s : t) : t := {| quota := quota s; area := [] |}.

Definition getItem (s : t) (key : jsstring) : option jsstring :=
  MemoryStorage.Map_get (area s) key.

Definition key (s : t) (index : Z) : option jsstring :=
  if (index <? 0)%Z then None
  else nth_error (MemoryStorage.Map_keys (area s)) (Z.to_nat index).

Definition removeItem (s : t) (key : option jsstring) : t :=
  {| quota := quota s; area := MemoryStorage.Map_delete (area s) (ToString key) |}.

Definition setItem (s : t) (key value : jsstring) : completion t :=
  let area' := MemoryStorage.Map_set (area s) key value in
  if size area' <=? quota s
  then Return {| quota := quota s; area := area' |}
  else Throw QuotaExceededError.

End QuotaStorage.

#[export] Instance QuotaStorage_api : Storage.api QuotaStorage.t := {
  Storage.length := QuotaStorage.length;
  Storage.clear := QuotaStorage.clear;
  Storage.getItem := QuotaStorage.getItem;
  Storage.key := QuotaStorage.key;
  Storage.removeItem := QuotaStorage.removeItem;
  Storage.setItem := QuotaStorage.setItem
}.

(** ** A JSON codec for a fragment of the values

    [null], the booleans, the natural numbers a double holds exactly,
    strings and arrays of these, written without white space as
    [JSON.stringify] writes them; and an object that holds itself, which
    [JSON.stringify] refuses with a TypeError. *)

Module MiniJSON.

#[local] Unset Elimination Schemes.

Inductive value : Type :=
| JNull
| JBool (b : bool)
| JNumber (n : N)
| JString (s : jsstring)
| JArray (elements : list value)
| JCircular.

#[local] Set Elimination Schemes.

Fixpoint digits (u : Decimal.uint) : jsstring :=
  match u with
  | Decimal.Nil => []
  | Decimal.D0 u' => 48%N :: digits u'
  | Decimal.D1 u' => 49%N :: digits u'
  | Decimal.D2 u' => 50%N :: digits u'
  | Decimal.D3 u' => 51%N :: digits u'
  | Decimal.D4 u' => 52%N :: digits u'
  | Decimal.D5 u' => 53%N :: digits u'
  | Decimal.D6 u' => 54%N :: digits u'
  | Decimal.D7 u' => 55%N :: digits u'
  | Decimal.D8 u' => 56%N :: digits u'
  | Decimal.D9 u' => 57%N :: digits u'
  end.

Definition hex_digit (n : N) : char16 :=
  if (n <? 10)%N then (48 + n)%N else (87 + n)%N.

(** The characters of a string between its quotes. *)
Fixpoint quote (s : jsstring) : jsstring :=
  match s with
  | [] => []
  | c :: s' =>
      (if N.eqb c 34 then [92%N; 34%N]
       else if N.eqb c 92 then js "\\"
       else if N.eqb c 8 then js "\b"
       else if N.eqb c 9 then js "\t"
       else if N.eqb c 10 then js "\n"
       else if N.eqb c 12 then js "\f"
       else if N.eqb c 13 then js "\r"
       else if (c <? 32)%N
            then js "\u00" ++ [hex_digit (c / 16); hex_digit (c mod 16)]
            else [c]) ++ quote s'
  end.

Fixpoint stringify_value (v : value) : completion jsstring :=
  match v with
  | JNull => Return (js "null")
  | JBool true => Return (js "true")
  | JBool false => Return (js "false")
  | JNumber n => Return (digits (N.to_uint n))
  | JString s => Return (34%N :: quote s ++ [34%N])
  | JArray elements =>
      let fix join (l : list value) : completion jsstring :=
        match l with
        | [] => Return []
        | x :: rest =>
            text <- stringify_value x ;;
            match rest with
            | [] => Return text
            | _ :: _ => more <- join rest ;; Return (text ++ 44%N :: more)
            end
        end in
      body <- join elements ;; Return (91%N :: body ++ [93%N])
  | JCircular => Throw TypeError
  end.

Definition hex_value (c : char16) : option N :=
  if ((48 <=? c) && (c <=? 57))%N then Some (c - 48)%N
  else if ((97 <=? c) && (c <=? 102))%N then Some (c - 87)%N
  else if ((65 <=? c) && (c <=? 70))%N then Some (c - 55)%N
  else None.

(** The rest of a string after its opening quote: the characters read and
    what follows the closing quote. *)
Fixpoint parse_string (s : jsstring) (read : jsstring) : option (jsstring * jsstring) :=
  match s with
  | [] => None
  | c :: s' =>
      if N.eqb c 34 then Some (rev read, s')
      else if N.eqb c 92 then
        match s' with
        | e :: s'' =>
            if N.eqb e 34 then parse_string s'' (34%N :: read)
            else if N.eqb e 92 then parse_string s'' (92%N :: read)
            else if N.eqb e 47 then parse_string s'' (47%N :: read)
            else if N.eqb e 98 then parse_string s'' (8%N :: read)
            else if N.eqb e 102 then parse_string s'' (12%N :: read)
            else if N.eqb e 110 then parse_string s'' (10%N :: read)
            else if N.eqb e 114 then parse_string s'' (13%N :: read)
            else if N.eqb e 116 then parse_string s'' (9%N :: read)
            else if N.eqb e 117 then
              match s'' with
              | h1 :: h2 :: h3 :: h4 :: tail =>
                  match hex_value h1, hex_value h2, hex_value h3, hex_value h4 with
                  | Some a, Some b, Some c', Some d =>
                      parse_string tail ((((a * 16 + b) * 16 + c') * 16 + d)%N :: read)
                  | _, _, _, _ => None
                  end
              | _ => None
              end
            else None
        | [] => None
        end
      else if (c <? 32)%N then None
      else parse_string s' (c :: read)
  end.

Definition digit_value (c : char16) : option N :=
  if ((48 <=? c) && (c <=? 57))%N then Some (c - 48)%N else None.

(** The digits at the head of [s] after the number [read] so far. *)
Fixpoint parse_digits (s : jsstring) (read : N) : N * jsstring :=
  match s with
  | [] => (read, [])
  | c :: s' =>
      match digit_value c with
      | Some d => parse_digits s' (read * 10 + d)%N
      | None => (read, s)
      end
  end.

(** A value at the head of [s] and what follows it; [fuel] bounds the
    depth of the arrays. *)
Fixpoint parse_value (fuel : nat) (s : jsstring) : option (value * jsstring) :=
  match fuel with
  | O => None
  | Datatypes.S fuel' =>
      match s with
      | [] => None
      | c :: s' =>
          if startsWith s (js "null") then Some (JNull, skipn 4 s)
          else if startsWith s (js "true") then Some (JBool true, skipn 4 s)
          else if startsWith s (js "false") then Some (JBool false, skipn 5 s)
          else if N.eqb c 34 then
            match parse_string s' [] with
            | Some (text, rest) => Some (JString text, rest)
            | None => None
            end
          else if N.eqb c 48 then Some (JNumber 0, s')
          else if ((49 <=? c) && (c <=? 57))%N then
            let (n, rest) := parse_digits s 0 in Some (JNumber n, rest)
          else if N.eqb c 91 then
            match s' with
            | d :: rest =>
                if N.eqb d 93 then Some (JArray [], rest)
                else
                  match parse_elements fuel' s' with
                  | Some (elements, rest') => Some (JArray elements, rest')
                  | None => None
                  end
            | [] => None
            end
          else None
      end
  end
with parse_elements (fuel : nat) (s : jsstring) : option (list value * jsstring) :=
  match fuel with
  | O => None
  | Datatypes.S fuel' =>
      match parse_value fuel' s with
      | Some (v, c :: rest) =>
          if N.eqb c 93 then Some ([v], rest)
          else if N.eqb c 44 then
            match parse_elements fuel' rest with
            | Some (more, rest') => Some (v :: more, rest')
            | None => None
            end
          else None
      | _ => None
      end
  end.

Definition parse_text (text : jsstring) : completion value :=
  match parse_value (Datatypes.S (2 * List.length text)) text with
  | Some (v, []) => Return v
  | _ => Throw SyntaxError
  end.

End MiniJSON.

#[export] Instance MiniJSON_codec : JSON.codec MiniJSON.value := {
  JSON.stringify := MiniJSON.stringify_value;
  JSON.parse := MiniJSON.parse_text
}.

(** The string [a LF / b]: a namespace-shaped key whose first segment ends
    in a line feed. *)
Definition key_with_line_feed : jsstring := js "a" ++ 10%N :: js "/b".

(** ** The fixture of the test suites

    What [beforeEach] of the WebStorage suite puts into the store, with
    values of the codec above, and the two facades it builds. *)

Module Fixture.

Definition quoted (s : string) : jsstring := 34%N :: js s ++ [34%N].

Definition seeded : MemoryStorage.t :=
  MemoryStorage.constructor
    [(js "simpleKey", quoted "value");
     (js "namespace/nsSimpleKey", quoted "namespace value");
     (js "objectKey", js "[1,2]");
     (js "namespace/nsObjectKey", js "[true]")].

Definition storage : WebStorage.t MemoryStorage.t :=
  WebStorage.constructor seeded None.

Definition nsStorage : WebStorage.t MemoryStorage.t :=
  WebStorage.constructor seeded (Some (js "namespace")).

End Fixture.

(** ** The rest of the mapping contract

    Beside [StorageContract]: setting a key leaves the values of the
    other keys, and a key that was removed is gone. *)

Class StorageFrame (S : Type) {store : Storage.api S} : Prop := {
  getItem_setItem_other :
    forall (s s' : S) (key value other : jsstring),
      Storage.setItem s key value = Return s' ->
      other <> key ->
      Storage.getItem s' other = Storage.getItem s other;
  getItem_removeItem :
    forall (s : S) (key : jsstring),
      Storage.getItem (Storage.removeItem s (Some key)) key = None
}.

Arguments StorageFrame S {store}.

(** ** web-storage.ts, the handler of the proxy

    The [get] trap is [WebStorage.proxy_get]; here are [set], [has],
    [deleteProperty] and [ownKeys].  A trap is called with the target,
    the object behind the proxy. *)

Module WebStorageProxy.

(** The members of the target that are accessors with a getter only;
    the class body is strict code, where assigning to one is a TypeError. *)
Definition getters : list jsstring := List.map js ["namespace"; "length"]%string.

Section Handler.

Context {S : Type} {store : Storage.api S} {V : Type} {json : JSON.codec V}.

(** What an assignment through the proxy did: it wrote the store, or it
    was [target[key] = data] on a member of the target, whose value is
    what the trap returns. *)
Inductive assignment : Type :=
| Written (target' : WebStorage.t S)
| Assigned (name : jsstring) (data : V).

Definition set (target : WebStorage.t S) (key : jsstring) (data : V)
  : completion assignment :=
  if negb (WebStorage.key_in_target key) then
    text <- JSON.stringify data ;;
    storage' <- Storage.setItem (WebStorage.storage target)
                  (WebStorage.keyWithNamespace target key) text ;;
    Return (Written (over target storage'))
  else if existsb (jsstring_eqb key) getters then Throw TypeError
  else Return (Assigned key data).

Definition has (target : WebStorage.t S) (key : jsstring) : bool :=
  if negb (WebStorage.key_in_target key) then
    match Storage.getItem (WebStorage.storage target)
            (WebStorage.keyWithNamespace target key) with
    | Some _ => true
    | None => false
    end
  else true.

(** The result of the trap and the target it leaves. *)
Definition deleteProperty (target : WebStorage.t S) (key : jsstring)
  : bool * WebStorage.t S :=
  (true,
   if negb (WebStorage.key_in_target key) then
     over target
          (Storage.removeItem (WebStorage.storage target)
             (Some (WebStorage.keyWithNamespace target key)))
   else target).

Definition ownKeys (target : WebStorage.t S) : completion (list (option jsstring)) :=
  WebStorage.getStorageKeys target.

End Handler.

End WebStorageProxy.

(** ** memory-storage.ts, the handler of the proxy

    A trap is called with the target.  An assignment through the proxy to
    the name of a member changes the target itself, so the target is the
    store together with the own properties such assignments gave it. *)

Module MemoryStorageProxy.

(** [key in target]: the field [internalItems], the members of
    [MemoryStorage.prototype] and those of [Object.prototype].  An
    assignment through the proxy adds no name and removes none. *)
Definition members : list jsstring :=
  List.map js
    [ "internalItems";
      "constructor"; "length"; "items"; "clear"; "hasItem"; "getItem"; "key";
      "removeItem"; "setItem"; "createProxy";
      "hasOwnProperty"; "isPrototypeOf"; "propertyIsEnumerable";
      "toLocaleString"; "toString"; "valueOf"; "__proto__";
      "__defineGetter__"; "__defineSetter__"; "__lookupGetter__";
      "__lookupSetter__" ]%string.

Definition key_in_target (key : jsstring) : bool :=
  existsb (jsstring_eqb key) members.

(** The accessors with a getter only; the class body is strict code, where
    assigning to one is a TypeError. *)
Definition getters : list jsstring := List.map js ["length"; "items"]%string.

(** The target: the map the constructor made, and the names that
    [target[key] = data] of the [set] trap made own properties, each with
    its data (a string, as the trap declares it), the latest first.  An
    assignment to [internalItems] is among them: it puts the string in
    the place of the map. *)
Record object : Type := {
  store : MemoryStorage.t;
  assigned : list (jsstring * jsstring)
}.

(** What [new MemoryStorage(items)] returns is the proxy of this target. *)
Definition fresh (s : MemoryStorage.t) : object :=
  {| store := s; assigned := [] |}.

Definition assigned_value (target : object) (name : jsstring) : option jsstring :=
  MemoryStorage.Map_get (assigned target) name.

Definition is_assigned (target : object) (name : jsstring) : bool :=
  match assigned_value target name with
  | Some _ => true
  | None => false
  end.

(** [target.hasOwnProperty(key)], where [hasOwnProperty] is still the
    method: the field the constructor sets and what was assigned. *)
Definition hasOwnProperty (target : object) (key : jsstring) : bool :=
  jsstring_eqb key (js "internalItems") || is_assigned target key.

(** [target.method(...)] for a method of the class, whose body starts with
    a call on [this.internalItems]: a TypeError when a string was assigned
    to the name of the method (a string is not callable) or to
    [internalItems] (a string has none of the methods of a map). *)
Definition call {A : Type} (target : object) (method : jsstring)
           (body : completion A) : completion A :=
  if is_assigned target method then Throw TypeError
  else if is_assigned target (js "internalItems") then Throw TypeError
  else body.

(** What [proxy[key]] is: what [getItem] gave, or the member of that name,
    with the string that was assigned to it if one was. *)
Inductive property : Type :=
| Item (value : option jsstring)
| Member (name : jsstring) (assignedValue : option jsstring).

Definition get (target : object) (key : jsstring) : completion property :=
  if negb (key_in_target key) then
    value <- call target (js "getItem")
               (Return (MemoryStorage.getItem (store target) key)) ;;
    Return (Item value)
  else Return (Member key (assigned_value target key)).

(** The result of the trap and the target it leaves.  [__proto__] has a
    setter, which does nothing with a string. *)
Definition set (target : object) (key data : jsstring) : completion (bool * object) :=
  if negb (key_in_target key) then
    store' <- call target (js "setItem")
                (MemoryStorage.setItem (store target) key data) ;;
    Return (true, {| store := store'; assigned := assigned target |})
  else if existsb (jsstring_eqb key) getters then Throw TypeError
  else if jsstring_eqb key (js "__proto__") then Return (true, target)
  else Return (true, {| store := store target;
                        assigned := (key, data) :: assigned target |}).

Definition has (target : object) (key : jsstring) : completion bool :=
  if negb (key_in_target key) then
    call target (js "hasItem") (Return (MemoryStorage.hasItem (store target) key))
  else Return true.

Definition deleteProperty (target : object) (key : jsstring)
  : completion (bool * object) :=
  own <- (if is_assigned target (js "hasOwnProperty") then Throw TypeError
          else Return (hasOwnProperty target key)) ;;
  if negb own then
    store' <- call target (js "removeItem")
                (Return (MemoryStorage.removeItem (store target) (Some key))) ;;
    Return (true, {| store := store'; assigned := assigned target |})
  else Return (true, target).

(** The assignments of the [set] trap are to names of members. *)
Definition well_formed (target : object) : Prop :=
  Forall (fun entry => key_in_target (fst entry) = true) (assigned target).

(** The methods the traps call, and the map, are as the class declares
    them: no string was assigned in their place. *)
Definition intact (target : object) : Prop :=
  forallb (fun name => negb (is_assigned target name))
          (List.map js ["internalItems"; "getItem"; "setItem"; "hasItem";
                        "removeItem"; "hasOwnProperty"]%string)
  = true.

End MemoryStorageProxy.

(** * Properties *)

Unset Implicit Arguments.

(** ** The codec of the examples *)

Example parse_examples :
  List.map JSON.parse [js "null"; js "[1,[true,false],[]]"; js "01"; js "[1,"; [34;92;117;48;48;52;49;34]%N]
  = [Return MiniJSON.JNull;
     Return (MiniJSON.JArray [MiniJSON.JNumber 1; MiniJSON.JArray [MiniJSON.JBool true; MiniJSON.JBool false]; MiniJSON.JArray []]);
     Throw SyntaxError; Throw SyntaxError; Return (MiniJSON.JString (js "A"))].
Proof. vm_compute. reflexivity. Qed.

Example stringify_examples :
  List.map JSON.stringify [MiniJSON.JArray [MiniJSON.JNumber 10; MiniJSON.JString (js "a\b"); MiniJSON.JNull];
                           MiniJSON.JArray [MiniJSON.JCircular]; MiniJSON.JString [7;10]%N]
  = [Return (js "[10," ++ 34 :: js "a\\b" ++ 34 :: js ",null]")%N; Throw TypeError; Return (34 :: js "\u0007\n" ++ [34])%N].
Proof. vm_compute. reflexivity. Qed.

(** ** Strings *)

Lemma jsstring_eqb_eq (a b : jsstring) : jsstring_eqb a b = true <-> a = b.
Proof.
  revert b; induction a as [|x a IH]; intros [|y b]; simpl; split; intro H;
    try reflexivity; try discriminate.
  - apply andb_true_iff in H as [Hx Hab].
    apply N.eqb_eq in Hx. apply IH in Hab. congruence.
  - injection H as -> ->. rewrite N.eqb_refl. simpl. apply IH. reflexivity.
Qed.

Lemma jsstring_eqb_refl (a : jsstring) : jsstring_eqb a a = true.
Proof. apply jsstring_eqb_eq. reflexivity. Qed.

Lemma jsstring_eqb_neq (a b : jsstring) : jsstring_eqb a b = false <-> a <> b.
Proof.
  split.
  - intros H Heq. apply jsstring_eqb_eq in Heq. congruence.
  - intro H. destruct (jsstring_eqb a b) eqn:E; [|reflexivity].
    apply jsstring_eqb_eq in E. contradiction.
Qed.

Lemma startsWith_app (prefix rest : jsstring) :
  startsWith (prefix ++ rest) prefix = true.
Proof.
  induction prefix as [|p prefix IH]; simpl; [reflexivity|].
  rewrite N.eqb_refl. exact IH.
Qed.

Lemma startsWith_split (s prefix : jsstring) :
  startsWith s prefix = true -> s = prefix ++ substr s (List.length prefix).
Proof.
  revert s; induction prefix as [|p prefix IH]; intros s H; simpl in *.
  - reflexivity.
  - destruct s as [|c s]; [discriminate|].
    apply andb_true_iff in H as [Hc Hs]. apply N.eqb_eq in Hc. subst c.
    unfold substr in *. simpl. f_equal. apply IH. exact Hs.
Qed.

Lemma startsWith_iff (s prefix : jsstring) :
  startsWith s prefix = true <-> exists rest, s = prefix ++ rest.
Proof.
  split.
  - intro H. eexists. apply startsWith_split. exact H.
  - intros [rest ->]. apply startsWith_app.
Qed.

Lemma substr_app (prefix rest : jsstring) :
  substr (prefix ++ rest) (List.length prefix) = rest.
Proof.
  unfold substr. induction prefix as [|p prefix IH]; simpl; [reflexivity|exact IH].
Qed.

(** The test is the search for a slash between two [.] characters. *)
Lemma RegExp_test_matches (key : jsstring) :
  RegExp_test key = true <-> slash_shaped key.
Proof.
  split.
  - induction key as [|c rest IH]; [discriminate|].
    destruct rest as [|d [|e tail]]; try discriminate.
    intro H. change (RegExp_test (c :: d :: e :: tail))
      with ((dot c && N.eqb d slash && dot e) || RegExp_test (d :: e :: tail)) in H.
    apply orb_true_iff in H as [H|H].
    + apply andb_true_iff in H as [H He]. apply andb_true_iff in H as [Hc Hd].
      apply N.eqb_eq in Hd. subst d.
      exists [], c, e, tail. simpl. auto.
    + destruct (IH H) as (before & c' & d' & after & Heq & Hc & Hd).
      exists (c :: before), c', d', after. simpl. rewrite Heq. auto.
  - intros (before & c & d & after & -> & Hc & Hd).
    induction before as [|b before IH].
    + simpl. rewrite Hc, Hd. unfold slash. reflexivity.
    + assert (exists x y rest, before ++ c :: slash :: d :: after = x :: y :: rest)
        as (x & y & rest & Heq).
      { destruct before as [|b1 [|b2 before]]; simpl; eauto. }
      simpl app. rewrite Heq in *.
      change (RegExp_test (b :: x :: y :: rest))
        with ((dot b && N.eqb x slash && dot y) || RegExp_test (x :: y :: rest)).
      rewrite IH. apply orb_true_r.
Qed.

(** The subjects of [.+\/.+], with the runs the two [.+] stand for. *)
Lemma slash_shaped_runs (key : jsstring) :
  slash_shaped key <->
  exists before run1 run2 after,
    key = before ++ run1 ++ slash :: run2 ++ after /\
    run1 <> [] /\ run2 <> [] /\
    forallb dot run1 = true /\ forallb dot run2 = true.
Proof.
  split.
  - intros (before & c & d & after & -> & Hc & Hd).
    exists before, [c], [d], after. simpl. rewrite Hc, Hd.
    repeat split; congruence.
  - intros (before & run1 & run2 & after & -> & H1 & H2 & Hd1 & Hd2).
    destruct run2 as [|d run2]; [contradiction|].
    destruct (exists_last H1) as (run1' & c & ->).
    exists (before ++ run1'), c, d, (run2 ++ after).
    rewrite forallb_app in Hd1. simpl in Hd1, Hd2.
    apply andb_true_iff in Hd1 as [_ Hc]. apply andb_true_iff in Hc as [Hc _].
    apply andb_true_iff in Hd2 as [Hd _].
    repeat split; try assumption.
    rewrite <- !app_assoc. reflexivity.
Qed.

(** ** The view of a facade, over any store *)

Section ViewFacts.

Context {S : Type} {store : Storage.api S}.

Implicit Types (this : WebStorage.t S) (keys : list (option jsstring)).

Lemma visit_string this (physical : jsstring) :
  WebStorage.visit this (Some physical)
  = Return (if in_view this physical then [Some (decode this physical)] else []).
Proof.
  unfold WebStorage.visit, in_view, decode.
  destruct (WebStorage.namespace this) as [ns|]; simpl.
  - destruct (startsWith physical (ns ++ [slash])); reflexivity.
  - destruct (RegExp_test physical); reflexivity.
Qed.

Lemma encode_decode this (physical : jsstring) :
  in_view this physical = true ->
  WebStorage.keyWithNamespace this (decode this physical) = physical.
Proof.
  unfold in_view, decode, WebStorage.keyWithNamespace.
  destruct (WebStorage.namespace this) as [ns|]; [|reflexivity].
  intro H. apply startsWith_split in H.
  rewrite length_app in H. simpl in H.
  rewrite <- app_assoc in H. simpl in H. symmetry. exact H.
Qed.

Lemma decode_encode this (key : jsstring) :
  decode this (WebStorage.keyWithNamespace this key) = key.
Proof.
  unfold decode, WebStorage.keyWithNamespace.
  destruct (WebStorage.namespace this) as [ns|]; [|reflexivity].
  change (ns ++ slash :: key) with (ns ++ [slash] ++ key).
  rewrite app_assoc.
  replace (List.length ns + 1) with (List.length (ns ++ [slash]))
    by (rewrite length_app; reflexivity).
  apply substr_app.
Qed.

Lemma getStorageKeys_loop_visit_all this (count : nat) (index : Z) keys :
  WebStorage.getStorageKeys_loop this count index keys
  = visit_all this
      (List.map (fun j => Storage.key (WebStorage.storage this) (index + Z.of_nat j)%Z)
                (seq 0 count))
      keys.
Proof.
  revert index keys; induction count as [|count IH]; intros index keys.
  - reflexivity.
  - simpl. rewrite Z.add_0_r.
    destruct (WebStorage.visit this (Storage.key (WebStorage.storage this) index));
      simpl; [|reflexivity].
    rewrite IH, <- seq_shift, map_map.
    f_equal. apply map_ext. intro j. f_equal. lia.
Qed.

Lemma visit_listed this (key : option jsstring) keys :
  WebStorage.visit this key = Return keys -> Forall (listed this) keys.
Proof.
  destruct key as [physical|].
  - rewrite visit_string. intro H. injection H as <-.
    destruct (in_view this physical) eqn:Hv; constructor; [|constructor].
    simpl. rewrite encode_decode; assumption.
  - unfold WebStorage.visit.
    destruct (WebStorage.namespace this) as [ns|] eqn:Hns; [discriminate|].
    destruct (negb (RegExp_test (ToString None))); intro H; injection H as <-;
      repeat constructor. exact Hns.
Qed.

Lemma visit_all_listed this (physical : list (option jsstring)) keys keys' :
  visit_all this physical keys = Return keys' ->
  Forall (listed this) keys -> Forall (listed this) keys'.
Proof.
  revert keys; induction physical as [|key rest IH]; intros keys H Hkeys; simpl in H.
  - injection H as <-. exact Hkeys.
  - destruct (WebStorage.visit this key) as [pushed|] eqn:Hvisit; [|discriminate].
    simpl in H. apply (IH _ H). apply Forall_app. split; [exact Hkeys|].
    eapply visit_listed. exact Hvisit.
Qed.

(** Every key that [getStorageKeys] lists has its physical key in the view. *)
Lemma getStorageKeys_listed this keys :
  WebStorage.getStorageKeys this = Return keys -> Forall (listed this) keys.
Proof.
  unfold WebStorage.getStorageKeys. rewrite getStorageKeys_loop_visit_all.
  intro H. eapply visit_all_listed; [exact H|constructor].
Qed.


End ViewFacts.

(** ** The in-memory store *)

Section MemoryFacts.

Import MemoryStorage.

Implicit Types (m : Map) (s : MemoryStorage.t) (k v : jsstring).

Lemma Map_get_has m k : Map_has m k = false -> Map_get m k = None.
Proof.
  induction m as [|[k' v'] m IH]; simpl; [reflexivity|].
  destruct (jsstring_eqb k' k); simpl; [discriminate|exact IH].
Qed.

Lemma getItem_Map_get s k : getItem s k = Map_get (internalItems s) k.
Proof.
  unfold getItem. destruct (Map_has (internalItems s) k) eqn:Hhas; [reflexivity|].
  symmetry. apply Map_get_has. exact Hhas.
Qed.

Lemma Map_get_set_same m k v : Map_get (Map_set m k v) k = Some v.
Proof.
  induction m as [|[k' v'] m IH]; simpl.
  - rewrite jsstring_eqb_refl. reflexivity.
  - destruct (jsstring_eqb k' k) eqn:E; simpl; rewrite E; [reflexivity|exact IH].
Qed.

Lemma Map_get_set_other m k v k' :
  k' <> k -> Map_get (Map_set m k v) k' = Map_get m k'.
Proof.
  intro Hne. induction m as [|[k0 v0] m IH]; simpl.
  - assert (jsstring_eqb k k' = false) as -> by (apply jsstring_eqb_neq; congruence).
    reflexivity.
  - destruct (jsstring_eqb k0 k) eqn:E; simpl.
    + apply jsstring_eqb_eq in E. subst k0.
      assert (jsstring_eqb k k' = false) as -> by (apply jsstring_eqb_neq; congruence).
      reflexivity.
    + destruct (jsstring_eqb k0 k'); [reflexivity|exact IH].
Qed.

Lemma Map_get_delete_other m k k' :
  k' <> k -> Map_get (Map_delete m k) k' = Map_get m k'.
Proof.
  intro Hne. induction m as [|[k0 v0] m IH]; simpl; [reflexivity|].
  destruct (jsstring_eqb k0 k) eqn:E; simpl.
  - apply jsstring_eqb_eq in E. subst k0.
    assert (jsstring_eqb k k' = false) as -> by (apply jsstring_eqb_neq; congruence).
    exact IH.
  - destruct (jsstring_eqb k0 k'); [reflexivity|exact IH].
Qed.

Lemma Map_get_delete_same m k : Map_get (Map_delete m k) k = None.
Proof.
  induction m as [|[k0 v0] m IH]; simpl; [reflexivity|].
  destruct (jsstring_eqb k0 k) eqn:E; simpl; [exact IH|].
  rewrite E. exact IH.
Qed.

Lemma Map_keys_set m k v :
  Map_keys (Map_set m k v) = if Map_has m k then Map_keys m else Map_keys m ++ [k].
Proof.
  induction m as [|[k0 v0] m IH]; simpl; [reflexivity|].
  destruct (jsstring_eqb k0 k) eqn:E; simpl; [reflexivity|].
  change (List.map fst (Map_set m k v)) with (Map_keys (Map_set m k v)).
  rewrite IH. destruct (Map_has m k); reflexivity.
Qed.

Lemma Map_has_keys m k : Map_has m k = true -> In k (Map_keys m).
Proof.
  induction m as [|[k0 v0] m IH]; simpl; [discriminate|].
  destruct (jsstring_eqb k0 k) eqn:E; simpl.
  - apply jsstring_eqb_eq in E. auto.
  - auto.
Qed.

(** The keys that [key(0)], [key(1)], ... give, up to the length. *)
Lemma MemoryStorage_enumeration s :
  List.map (fun j => key s (Z.of_nat j)) (seq 0 (length s))
  = List.map or_null (Map_keys (internalItems s)).
Proof.
  unfold length, key. destruct s as [m]. simpl.
  rewrite <- (length_map fst m). fold (Map_keys m).
  generalize (Map_keys m) as l. intro l.
  apply nth_error_ext. intro n.
  rewrite !nth_error_map, nth_error_seq.
  destruct (Nat.ltb_spec n (List.length l)) as [Hlt|Hge]; simpl.
  - destruct (Z.of_nat n <? 0)%Z eqn:Hneg; [apply Z.ltb_lt in Hneg; lia|].
    rewrite Nat2Z.id.
    destruct (nth_error l n) as [k|] eqn:Hn; [reflexivity|].
    apply nth_error_None in Hn. lia.
  - assert (nth_error l n = None) as -> by (apply nth_error_None; exact Hge).
    reflexivity.
Qed.

Lemma MemoryStorage_getStorageKeys (this : WebStorage.t MemoryStorage.t) :
  WebStorage.getStorageKeys this
  = visit_all this
      (List.map or_null (Map_keys (internalItems (WebStorage.storage this)))) [].
Proof.
  unfold WebStorage.getStorageKeys.
  rewrite getStorageKeys_loop_visit_all.
  f_equal. apply MemoryStorage_enumeration.
Qed.

End MemoryFacts.

#[export] Instance MemoryStorage_contract : StorageContract MemoryStorage.t.
Proof.
  constructor.
  - intros s s' k v H. simpl in H.
    unfold MemoryStorage.setItem in H. injection H as <-.
    simpl. rewrite getItem_Map_get. simpl. apply Map_get_set_same.
  - intros s [removed|] k Hne; simpl; [|reflexivity].
    rewrite !getItem_Map_get. simpl. apply Map_get_delete_other.
    simpl in Hne. congruence.
Qed.

#[export] Instance QuotaStorage_contract : StorageContract QuotaStorage.t.
Proof.
  constructor.
  - intros s s' k v H. simpl in H. unfold QuotaStorage.setItem in H.
    destruct (QuotaStorage.size (MemoryStorage.Map_set (QuotaStorage.area s) k v)
              <=? QuotaStorage.quota s); [|discriminate].
    injection H as <-. simpl. unfold QuotaStorage.getItem. simpl.
    apply Map_get_set_same.
  - intros s removed k Hne. simpl. unfold QuotaStorage.getItem. simpl.
    apply Map_get_delete_other. congruence.
Qed.

(** ** The key codec *)

(** C7. Codec round trip: for a facade with a namespace [ns], the physical
    key of a logical key is [ns], a slash and the key; it passes the prefix
    test of [getStorageKeys], and stripping the prefix gives the logical
    key back, so that the loop of [getStorageKeys] pushes exactly that key. *)
Theorem codec_round_trip {S : Type} {store : Storage.api S}
        (this : WebStorage.t S) (ns key : jsstring) :
  WebStorage.namespace this = Some ns ->
  WebStorage.keyWithNamespace this key = ns ++ slash :: key /\
  startsWith (WebStorage.keyWithNamespace this key) (ns ++ [slash]) = true /\
  substr (WebStorage.keyWithNamespace this key) (List.length ns + 1) = key /\
  WebStorage.visit this (Some (WebStorage.keyWithNamespace this key)) = Return [Some key].
Proof.
  intro Hns.
  assert (Hdec := decode_encode this key).
  assert (Hview : in_view this (WebStorage.keyWithNamespace this key) = true).
  { unfold in_view, WebStorage.keyWithNamespace. rewrite Hns.
    change (ns ++ slash :: key) with (ns ++ [slash] ++ key).
    rewrite app_assoc. apply startsWith_app. }
  rewrite visit_string, Hview, Hdec.
  unfold in_view, decode in *. unfold WebStorage.keyWithNamespace in *.
  rewrite Hns in *. auto.
Qed.

Lemma codec_round_trip_witness :
  let this := WebStorage.constructor (MemoryStorage.constructor []) (Some (js "namespace")) in
  WebStorage.namespace this = Some (js "namespace") /\
  WebStorage.visit this (Some (WebStorage.keyWithNamespace this (js "nsKey")))
  = Return [Some (js "nsKey")].
Proof.
  split; [reflexivity|].
  apply (@codec_round_trip _ _
           (WebStorage.constructor (MemoryStorage.constructor []) (Some (js "namespace")))
           (js "namespace") (js "nsKey")).
  reflexivity.
Defined.

(** C9. A facade built with the empty string as its namespace is the
    facade built with no namespace: [hasNamespace()] is false, [namespace]
    is null, and the physical key of every logical key is the key itself. *)
Theorem empty_namespace_is_no_namespace {S : Type} {store : Storage.api S} (storage : S) :
  let this := WebStorage.constructor storage (Some (js "")) in
  this = WebStorage.constructor storage None /\
  WebStorage.hasNamespace this = false /\
  WebStorage.namespace this = None /\
  forall key : jsstring, WebStorage.keyWithNamespace this key = key.
Proof.
  simpl. repeat split.
Qed.

(** ** The in-memory store's [key] *)

(** C10. [MemoryStorage.key(index)] is null for every index at or past the
    number of entries, and it is null as well at the position of the empty
    key, which is below [length]: after [setItem("", value)] on an empty
    store, [length] is 1 and [key(0)] is null. *)
Theorem MemoryStorage_key_null_for_empty_key :
  (forall (s : MemoryStorage.t) (index : Z),
      (Z.of_nat (MemoryStorage.length s) <= index)%Z ->
      MemoryStorage.key s index = None) /\
  (forall (s : MemoryStorage.t) (index : Z),
      (0 <= index)%Z ->
      nth_error (MemoryStorage.Map_keys (MemoryStorage.items s)) (Z.to_nat index)
      = Some (js "") ->
      (index < Z.of_nat (MemoryStorage.length s))%Z /\
      MemoryStorage.key s index = None) /\
  (forall value : jsstring,
      exists s : MemoryStorage.t,
        MemoryStorage.setItem (MemoryStorage.constructor []) (js "") value = Return s /\
        MemoryStorage.length s = 1 /\
        MemoryStorage.key s 0 = None).
Proof.
  split; [|split].
  - intros s index Hge. unfold MemoryStorage.key, MemoryStorage.length in *.
    destruct (index <? 0)%Z; [reflexivity|].
    assert (nth_error (MemoryStorage.Map_keys (MemoryStorage.internalItems s))
                      (Z.to_nat index) = None) as ->; [|reflexivity].
    apply nth_error_None. unfold MemoryStorage.Map_keys. rewrite length_map. lia.
  - intros s index Hpos Hnth. split.
    + assert (Hlt : Z.to_nat index
                    < List.length (MemoryStorage.Map_keys (MemoryStorage.items s))).
      { apply nth_error_Some. rewrite Hnth. discriminate. }
      unfold MemoryStorage.Map_keys, MemoryStorage.items in Hlt.
      rewrite length_map in Hlt. unfold MemoryStorage.length. lia.
    + unfold MemoryStorage.key.
      destruct (index <? 0)%Z eqn:Hneg; [reflexivity|].
      unfold MemoryStorage.items in Hnth. rewrite Hnth. reflexivity.
  - intro value. eexists. split; [reflexivity|]. split; reflexivity.
Qed.

Lemma MemoryStorage_key_null_for_empty_key_witness :
  let s := MemoryStorage.constructor [(js "", js "v"); (js "k", js "w")] in
  MemoryStorage.length s = 2 /\
  MemoryStorage.key s 0 = None /\
  MemoryStorage.key s 1 = Some (js "k") /\
  MemoryStorage.key s 2 = None.
Proof.
  set (s := MemoryStorage.constructor [(js "", js "v"); (js "k", js "w")]).
  split; [reflexivity|]. split; [|split; [reflexivity|]].
  - apply (proj1 (proj2 MemoryStorage_key_null_for_empty_key) s 0%Z);
      [lia|reflexivity].
  - apply (proj1 MemoryStorage_key_null_for_empty_key s 2%Z). vm_compute. discriminate.
Defined.

(** ** [set] and [get] *)

(** C3. Set/get round trip: over a store that keeps what was set, for a
    value that the codec writes and reads back, if [set(key, value)]
    returns true then [get(key)] on the facade it leaves returns that
    value, whatever the default. *)
Theorem set_get_round_trip {S : Type} {store : Storage.api S}
        {contract : StorageContract S} {V : Type} {json : JSON.codec V}
        (this this' : WebStorage.t S) (key : jsstring) (value defaultValue : V) :
  lossless value ->
  WebStorage.set this key value = Return (true, this') ->
  WebStorage.get this' key defaultValue = Return value.
Proof.
  intros (text & Hwrite & Hread) Hset.
  unfold WebStorage.set in Hset. rewrite Hwrite in Hset. simpl in Hset.
  destruct (Storage.setItem (WebStorage.storage this)
              (WebStorage.keyWithNamespace this key) text) as [storage'|e] eqn:Hstore;
    simpl in Hset; [|discriminate].
  injection Hset as <-.
  apply getItem_setItem in Hstore.
  unfold WebStorage.get, WebStorage.keyWithNamespace, WebStorage.namespace in *.
  simpl. rewrite Hstore. exact Hread.
Qed.

Lemma set_get_round_trip_witness :
  let this := WebStorage.constructor (MemoryStorage.constructor []) None in
  let value := MiniJSON.JArray [MiniJSON.JNumber 1; MiniJSON.JNumber 2; MiniJSON.JNumber 3] in
  let this' := over this (MemoryStorage.constructor [(js "k", js "[1,2,3]")]) in
  lossless value /\
  WebStorage.set this (js "k") value = Return (true, this') /\
  WebStorage.get this' (js "k") MiniJSON.JNull = Return value.
Proof.
  assert (Hl : lossless (MiniJSON.JArray
                           [MiniJSON.JNumber 1; MiniJSON.JNumber 2; MiniJSON.JNumber 3])).
  { exists (js "[1,2,3]"). split; reflexivity. }
  split; [exact Hl|]. split; [reflexivity|].
  apply (@set_get_round_trip _ _ MemoryStorage_contract _ _
           (WebStorage.constructor (MemoryStorage.constructor []) None)
           _ (js "k") _ MiniJSON.JNull Hl).
  reflexivity.
Defined.

(** C2 as stated fails: the [catch] of [set] has no test on the exception,
    so that the TypeError of [JSON.stringify] on a circular value does not
    reach the caller; [set] returns false. *)
Lemma set_swallows_serialisation_fault :
  let this := WebStorage.constructor (MemoryStorage.constructor []) None in
  JSON.stringify MiniJSON.JCircular = Throw TypeError /\
  WebStorage.set this (js "k") MiniJSON.JCircular = Return (false, this) /\
  WebStorage.set this (js "k") MiniJSON.JCircular <> Throw TypeError.
Proof.
  simpl. split; [reflexivity|]. split; [reflexivity|discriminate].
Qed.

(** C2, amended. [set(key, value)] never throws.  It returns true, and
    leaves the store that [setItem] gave, when [JSON.stringify] and
    [setItem] both return; it returns false, and leaves the store as it
    was, when [setItem] throws (the store is full) and as well when
    [JSON.stringify] throws: no fault of [set] reaches the caller. *)
Theorem set_fault_policy {S : Type} {store : Storage.api S}
        {V : Type} {json : JSON.codec V}
        (this : WebStorage.t S) (key : jsstring) (value : V) :
  (exists (result : bool) (this' : WebStorage.t S),
      WebStorage.set this key value = Return (result, this')) /\
  (forall (text : jsstring) (storage' : S),
      JSON.stringify value = Return text ->
      Storage.setItem (WebStorage.storage this)
                      (WebStorage.keyWithNamespace this key) text = Return storage' ->
      WebStorage.set this key value = Return (true, over this storage')) /\
  (forall (text : jsstring) (e : exn),
      JSON.stringify value = Return text ->
      Storage.setItem (WebStorage.storage this)
                      (WebStorage.keyWithNamespace this key) text = Throw e ->
      WebStorage.set this key value = Return (false, this)) /\
  (forall e : exn,
      JSON.stringify value = Throw e ->
      WebStorage.set this key value = Return (false, this)).
Proof.
  unfold WebStorage.set. repeat split.
  - destruct (JSON.stringify value) as [text|e]; simpl; [|eauto].
    destruct (Storage.setItem (WebStorage.storage this)
                (WebStorage.keyWithNamespace this key) text); simpl; eauto.
  - intros text storage' -> Hstore. simpl. rewrite Hstore. reflexivity.
  - intros text e -> Hstore. simpl. rewrite Hstore. reflexivity.
  - intros e ->. reflexivity.
Qed.

Lemma set_fault_policy_witness :
  let full := {| QuotaStorage.quota := 8; QuotaStorage.area := [] |} in
  let this := WebStorage.constructor full None in
  let value := MiniJSON.JString (js "test data test data") in
  Storage.setItem full (js "longValue") (34%N :: js "test data test data" ++ [34%N])
  = Throw QuotaExceededError /\
  WebStorage.set this (js "longValue") value = Return (false, this).
Proof.
  split; [reflexivity|].
  apply (proj1 (proj2 (proj2
           (@set_fault_policy _ _ _ _
              (WebStorage.constructor
                 {| QuotaStorage.quota := 8; QuotaStorage.area := [] |} None)
              (js "longValue") (MiniJSON.JString (js "test data test data")))))
           (34%N :: js "test data test data" ++ [34%N]) QuotaExceededError);
    reflexivity.
Defined.

(** ** Keys with a slash in a facade without namespace *)

(** Without a namespace, [getStorageKeys] lists no key that the slash
    pattern matches. *)
Lemma null_view_excludes_slash_shaped {S : Type} {store : Storage.api S}
      (this : WebStorage.t S) (key : jsstring) (keys : list (option jsstring)) :
  WebStorage.namespace this = None ->
  slash_shaped key ->
  WebStorage.getStorageKeys this = Return keys ->
  ~ In (Some key) keys.
Proof.
  intros Hns Hshape Hkeys Hin.
  apply getStorageKeys_listed in Hkeys.
  rewrite Forall_forall in Hkeys. specialize (Hkeys _ Hin). simpl in Hkeys.
  unfold in_view, WebStorage.keyWithNamespace in Hkeys. rewrite Hns in Hkeys.
  apply RegExp_test_matches in Hshape. rewrite Hshape in Hkeys. discriminate.
Qed.

(** C5 as stated fails: a facade without namespace does store a key with a
    slash; [has] is true of it and [get] returns its value, not the
    default. *)
Lemma null_facade_stores_slash_key :
  let this := WebStorage.constructor (MemoryStorage.constructor []) None in
  let this' := over this (MemoryStorage.constructor [(js "x/y", js "1")]) in
  slash_shaped (js "x/y") /\
  WebStorage.set this (js "x/y") (MiniJSON.JNumber 1) = Return (true, this') /\
  WebStorage.has this' (js "x/y") = Return true /\
  WebStorage.get this' (js "x/y") MiniJSON.JNull = Return (MiniJSON.JNumber 1).
Proof.
  simpl. split; [|repeat split].
  exists [], 120%N, 121%N, []. repeat split.
Qed.

(** C5, amended. In a facade without namespace over a store that keeps what
    was set, a key with a slash between two characters that are no line
    terminators is stored like any other: after [set(key, value)] returned
    true, [has(key)] is true and [get(key, d)] reads the text that was
    written, not [d]; the key is only missing from [keys()]. *)
Theorem null_facade_slash_key_hidden_not_absent
        {S : Type} {store : Storage.api S} {contract : StorageContract S}
        {V : Type} {json : JSON.codec V}
        (this this' : WebStorage.t S) (key : jsstring) (value defaultValue : V) :
  WebStorage.namespace this = None ->
  slash_shaped key ->
  WebStorage.set this key value = Return (true, this') ->
  WebStorage.has this' key = Return true /\
  (exists text : jsstring,
      JSON.stringify value = Return text /\
      WebStorage.get this' key defaultValue = JSON.parse text) /\
  (forall keys : list (option jsstring),
      WebStorage.keys this' = Return keys -> ~ In (Some key) keys).
Proof.
  intros Hns Hshape Hset.
  unfold WebStorage.set in Hset.
  destruct (JSON.stringify value) as [text|e]; simpl in Hset; [|discriminate].
  destruct (Storage.setItem (WebStorage.storage this)
              (WebStorage.keyWithNamespace this key) text) as [storage'|e] eqn:Hstore;
    simpl in Hset; [|discriminate].
  injection Hset as <-.
  apply getItem_setItem in Hstore.
  split; [|split].
  - unfold WebStorage.has, WebStorage.keyWithNamespace, WebStorage.namespace in *.
    simpl. rewrite Hstore. reflexivity.
  - exists text. split; [reflexivity|].
    unfold WebStorage.get, WebStorage.keyWithNamespace, WebStorage.namespace in *.
    simpl. rewrite Hstore. reflexivity.
  - intros keys Hkeys.
    eapply null_view_excludes_slash_shaped; [|exact Hshape|exact Hkeys].
    exact Hns.
Qed.

Lemma null_facade_slash_key_hidden_not_absent_witness :
  let this := WebStorage.constructor (MemoryStorage.constructor []) None in
  let this' := over this (MemoryStorage.constructor [(js "x/y", js "1")]) in
  WebStorage.namespace this = None /\
  slash_shaped (js "x/y") /\
  WebStorage.set this (js "x/y") (MiniJSON.JNumber 1) = Return (true, this') /\
  WebStorage.has this' (js "x/y") = Return true /\
  WebStorage.keys this' = Return [].
Proof.
  assert (Hshape : slash_shaped (js "x/y")).
  { exists [], 120%N, 121%N, []. repeat split. }
  split; [reflexivity|]. split; [exact Hshape|]. split; [reflexivity|].
  split; [|reflexivity].
  apply (@null_facade_slash_key_hidden_not_absent _ _ MemoryStorage_contract _ _
           (WebStorage.constructor (MemoryStorage.constructor []) None)
           (over (WebStorage.constructor (MemoryStorage.constructor []) None)
                 (MemoryStorage.constructor [(js "x/y", js "1")]))
           (js "x/y") (MiniJSON.JNumber 1) MiniJSON.JNull);
    [reflexivity|exact Hshape|reflexivity].
Defined.

(** C4, at the input where the code departs from it.  [.] matches no line
    terminator, so the pattern misses a key whose slash follows a line
    feed: the physical key [a LF / b], both segments non-empty, written
    to the store directly, is listed by the facade without namespace, is
    counted by its [length] and is visited by its iterators; the facade
    with namespace [a LF] lists the same entry as [b]. *)
Theorem null_view_lists_key_with_line_feed :
  let storage := MemoryStorage.constructor [(key_with_line_feed, js "1")] in
  let this := WebStorage.constructor storage None in
  let named := WebStorage.constructor storage (Some (js "a" ++ [10%N])) in
  key_with_line_feed = (js "a" ++ [10%N]) ++ slash :: js "b" /\
  RegExp_test key_with_line_feed = false /\
  WebStorage.keys this = Return [Some key_with_line_feed] /\
  WebStorage.length this = Return 1 /\
  WebStorage.iterator this
  = Return [Return (WebStorage.Stored (MiniJSON.JNumber 1), Some key_with_line_feed)] /\
  WebStorage.asyncIterator this
  = Return [Return (WebStorage.Stored (MiniJSON.JNumber 1), Some key_with_line_feed)] /\
  WebStorage.keys named = Return [Some (js "b")].
Proof.
  vm_compute. repeat split.
Qed.

(** ** Iteration *)

(** Where the name is no member of the object and the store holds the key,
    the iterators' [this[key]] is what [get(key)] returns. *)
Lemma proxy_get_agrees_with_get {S : Type} {store : Storage.api S}
      {V : Type} {json : JSON.codec V}
      (this : WebStorage.t S) (key : jsstring) (defaultValue : V) :
  WebStorage.key_in_target key = false ->
  Storage.getItem (WebStorage.storage this) (WebStorage.keyWithNamespace this key) <> None ->
  WebStorage.proxy_get this key
  = (value <- WebStorage.get this key defaultValue ;; Return (WebStorage.Stored value)).
Proof.
  intros Hmember Hstored. unfold WebStorage.proxy_get, WebStorage.get.
  rewrite Hmember. simpl.
  destruct (Storage.getItem (WebStorage.storage this)
              (WebStorage.keyWithNamespace this key)); [reflexivity|contradiction].
Qed.

(** C6, at the input where the code departs from it.  The iterators read
    [this[key]] through the proxy, whose [get] trap answers a name that is
    in the object with the member of that name.  After [set("get", 1)],
    [keys()] is ["get"] and [get("get")] is 1, but both iterators yield the
    method [get] for that key, not the value 1. *)
Theorem iterator_yields_member_for_colliding_key :
  let this := WebStorage.constructor (MemoryStorage.constructor []) None in
  let this' := over this (MemoryStorage.constructor [(js "get", js "1")]) in
  WebStorage.set this (js "get") (MiniJSON.JNumber 1) = Return (true, this') /\
  WebStorage.keys this' = Return [Some (js "get")] /\
  WebStorage.get this' (js "get") MiniJSON.JNull = Return (MiniJSON.JNumber 1) /\
  WebStorage.iterator (V := MiniJSON.value) this'
  = Return [Return (WebStorage.Member (js "get"), Some (js "get"))] /\
  WebStorage.asyncIterator (V := MiniJSON.value) this'
  = Return [Return (WebStorage.Member (js "get"), Some (js "get"))].
Proof.
  vm_compute. repeat split.
Qed.

(** ** [key] of the facade *)

(** C8, where the code departs from it.  [key(index)] is
    [getStorageKeys()[index]]: for every index outside the range of the
    listed keys the result is [undefined], never null. *)
Theorem key_out_of_range_is_undefined {S : Type} {store : Storage.api S}
        (this : WebStorage.t S) (keys : list (option jsstring)) (index : Z) :
  WebStorage.getStorageKeys this = Return keys ->
  (index < 0 \/ Z.of_nat (List.length keys) <= index)%Z ->
  WebStorage.key this index = Return WebStorage.EUndefined /\
  WebStorage.key this index <> Return WebStorage.ENull.
Proof.
  intros Hkeys Hout. unfold WebStorage.key. rewrite Hkeys. simpl.
  destruct (index <? 0)%Z eqn:Hneg.
  - split; [reflexivity|discriminate].
  - apply Z.ltb_ge in Hneg.
    assert (nth_error keys (Z.to_nat index) = None) as ->
      by (apply nth_error_None; lia).
    split; [reflexivity|discriminate].
Qed.

Lemma key_out_of_range_is_undefined_witness :
  let this := WebStorage.constructor (MemoryStorage.constructor [(js "k", js "1")]) None in
  WebStorage.getStorageKeys this = Return [Some (js "k")] /\
  WebStorage.key this 0 = Return (WebStorage.EString (js "k")) /\
  WebStorage.key this 1 = Return WebStorage.EUndefined.
Proof.
  split; [reflexivity|]. split; [reflexivity|].
  apply (@key_out_of_range_is_undefined _ _
           (WebStorage.constructor (MemoryStorage.constructor [(js "k", js "1")]) None)
           [Some (js "k")] 1%Z); [reflexivity|simpl; lia].
Defined.

(** ** Facades that share a store *)

Section SharedStore.

Context {S : Type} {store : Storage.api S}.

Implicit Types (this other : WebStorage.t S).



(** A facade lists no key whose physical key is outside its view. *)
Lemma outside_view_not_listed other (physical : jsstring) (keys : list (option jsstring)) :
  in_view other physical = false ->
  WebStorage.keys other = Return keys ->
  forall key : jsstring,
    In (Some key) keys -> WebStorage.keyWithNamespace other key <> physical.
Proof.
  intros Hout Hkeys key Hin Heq.
  apply getStorageKeys_listed in Hkeys.
  rewrite Forall_forall in Hkeys. specialize (Hkeys _ Hin). simpl in Hkeys.
  congruence.
Qed.




End SharedStore.

(** Distinct namespaces without a slash are unrelated in that sense. *)
Lemma slash_free_namespaces_unrelated (a b : jsstring) :
  a <> b -> ~ In slash a -> ~ In slash b ->
  startsWith (a ++ [slash]) (b ++ [slash]) = false.
Proof.
  intros Hne Ha Hb.
  destruct (startsWith (a ++ [slash]) (b ++ [slash])) eqn:E; [|reflexivity].
  exfalso. apply startsWith_iff in E as [rest E].
  destruct rest as [|c rest].
  - rewrite app_nil_r in E. apply app_inj_tail in E as [E _]. contradiction.
  - destruct (exists_last (l := c :: rest)) as (rest' & z & Hlast); [discriminate|].
    rewrite Hlast, app_assoc in E. apply app_inj_tail in E as [E _].
    apply Ha. rewrite E. apply in_or_app. left. apply in_or_app. right. left. reflexivity.
Qed.

Section SharedMemoryStorage.

Import MemoryStorage.

Implicit Types (this other : WebStorage.t MemoryStorage.t).


End SharedMemoryStorage.





(** Why the empty physical key is left out above: over the in-memory
    store, after a facade without namespace wrote the key [""], [key(index)]
    answers null at its position and [keys()] of a facade with a
    namespace throws. *)
Example empty_key_breaks_named_keys :
  let storage := MemoryStorage.constructor [(js "ns/k", js "1")] in
  let plain := WebStorage.constructor storage None in
  let ns := WebStorage.constructor storage (Some (js "ns")) in
  let written := MemoryStorage.constructor [(js "ns/k", js "1"); (js "", js "2")] in
  in_view ns (WebStorage.keyWithNamespace plain (js "")) = false /\
  WebStorage.set plain (js "") (MiniJSON.JNumber 2) = Return (true, over plain written) /\
  WebStorage.keys ns = Return [Some (js "k")] /\
  WebStorage.keys (over ns written) = Throw TypeError.
Proof. vm_compute. repeat split. Qed.

(** ** Scenarios of the test suites *)

(** [MemoryStorage class / key]. *)
Example MemoryStorage_key_by_index :
  let s := MemoryStorage.constructor
             [(js "someKey", js "some value"); (js "anotherKey", js "another value")] in
  MemoryStorage.length s = 2 /\
  MemoryStorage.key s 0 = Some (js "someKey") /\
  MemoryStorage.key s 1 = Some (js "anotherKey") /\
  MemoryStorage.key s 10 = None /\
  MemoryStorage.getItem (MemoryStorage.removeItem s (Some (js "someKey"))) (js "someKey")
  = None.
Proof. vm_compute. repeat split. Qed.

(** [WebStorage class / namespace, length, keys(), get(), has()]. *)
Example WebStorage_views :
  WebStorage.namespace Fixture.storage = None /\
  WebStorage.namespace Fixture.nsStorage = Some (js "namespace") /\
  WebStorage.hasNamespace Fixture.storage = false /\
  WebStorage.hasNamespace Fixture.nsStorage = true /\
  WebStorage.length Fixture.storage = Return 2 /\
  WebStorage.keys Fixture.storage = Return [Some (js "simpleKey"); Some (js "objectKey")] /\
  WebStorage.keys Fixture.nsStorage = Return [Some (js "nsSimpleKey"); Some (js "nsObjectKey")] /\
  WebStorage.get Fixture.storage (js "simpleKey") MiniJSON.JNull
  = Return (MiniJSON.JString (js "value")) /\
  WebStorage.get Fixture.nsStorage (js "nsSimpleKey") MiniJSON.JNull
  = Return (MiniJSON.JString (js "namespace value")) /\
  WebStorage.get Fixture.storage (js "notExists") (MiniJSON.JBool true)
  = Return (MiniJSON.JBool true) /\
  WebStorage.has Fixture.storage (js "objectKey") = Return true /\
  WebStorage.has Fixture.nsStorage (js "notExists") = Return false.
Proof. vm_compute. repeat split. Qed.

(** [WebStorage class / clear()]: the keys of the other view stay. *)
Example WebStorage_clear_own_keys :
  exists cleared : WebStorage.t MemoryStorage.t,
    WebStorage.clear Fixture.storage = Return cleared /\
    WebStorage.keys cleared = Return [] /\
    WebStorage.keys (over Fixture.nsStorage (WebStorage.storage cleared))
    = Return [Some (js "nsSimpleKey"); Some (js "nsObjectKey")].
Proof. eexists. vm_compute. repeat split. Qed.

(** [WebStorage class / iterator]: the pairs of the store's values. *)
Example WebStorage_iterator_pairs :
  WebStorage.iterator Fixture.nsStorage
  = Return
      [Return (WebStorage.Stored (MiniJSON.JString (js "namespace value")),
               Some (js "nsSimpleKey"));
       Return (WebStorage.Stored (MiniJSON.JArray [MiniJSON.JBool true]),
               Some (js "nsObjectKey"))].
Proof. vm_compute. reflexivity. Qed.

(** With the empty key in the in-memory store, [key(index)] hands [null]
    to [getStorageKeys]: the facade without namespace lists [null], and
    [startsWith] on [null] throws in the facade with a namespace. *)
Example empty_key_in_MemoryStorage :
  let s := MemoryStorage.constructor [(js "", js "1"); (js "k", js "2")] in
  WebStorage.keys (WebStorage.constructor s None) = Return [None; Some (js "k")] /\
  WebStorage.key (WebStorage.constructor s None) 0 = Return WebStorage.ENull /\
  WebStorage.keys (WebStorage.constructor s (Some (js "ns"))) = Throw TypeError.
Proof. vm_compute. repeat split. Qed.


(** * Further properties of the code *)

(** ** MemoryStorage as a mapping *)

Section MemoryMapping.

Import MemoryStorage.

Implicit Types (m : Map) (s : MemoryStorage.t) (k v : jsstring).

Lemma Map_has_get m k :
  Map_has m k = match Map_get m k with Some _ => true | None => false end.
Proof.
  induction m as [|[k' v'] m IH]; simpl; [reflexivity|].
  destruct (jsstring_eqb k' k); [reflexivity|exact IH].
Qed.

Lemma Map_has_In m k : Map_has m k = true <-> In k (Map_keys m).
Proof.
  split; [apply Map_has_keys|].
  induction m as [|[k' v'] m IH]; simpl; [contradiction|].
  intros [->|Hin].
  - rewrite jsstring_eqb_refl. reflexivity.
  - rewrite (IH Hin). apply orb_true_r.
Qed.

Lemma Map_keys_delete m k :
  Map_keys (Map_delete m k) = filter (fun k' => negb (jsstring_eqb k' k)) (Map_keys m).
Proof.
  induction m as [|[k' v'] m IH]; simpl; [reflexivity|].
  destruct (jsstring_eqb k' k); simpl; [exact IH|].
  f_equal. exact IH.
Qed.

Lemma Map_delete_absent m k : Map_has m k = false -> Map_delete m k = m.
Proof.
  induction m as [|[k' v'] m IH]; simpl; [reflexivity|].
  destruct (jsstring_eqb k' k); simpl; [discriminate|].
  intro H. f_equal. apply IH. exact H.
Qed.

Lemma Map_has_delete m k : Map_has (Map_delete m k) k = false.
Proof. rewrite Map_has_get, Map_get_delete_same. reflexivity. Qed.

(** X1. [setItem] then [getItem]: the key holds the value that was set,
    [hasItem] is true of it, and every other key is as it was. *)
Theorem MemoryStorage_setItem_getItem s (key value other : jsstring) :
  exists s',
    setItem s key value = Return s' /\
    getItem s' key = Some value /\
    hasItem s' key = true /\
    (other <> key ->
     getItem s' other = getItem s other /\ hasItem s' other = hasItem s other).
Proof.
  eexists. split; [reflexivity|].
  unfold hasItem. rewrite !Map_has_get, !getItem_Map_get. simpl.
  rewrite Map_get_set_same. repeat split.
  - apply Map_get_set_other. assumption.
  - rewrite Map_get_set_other by assumption. reflexivity.
Qed.

Lemma MemoryStorage_setItem_getItem_witness :
  let s := constructor [(js "someKey", js "some value")] in
  let s' := constructor [(js "someKey", js "some value"); (js "testKey", js "testValue")] in
  js "someKey" <> js "testKey" /\
  setItem s (js "testKey") (js "testValue") = Return s' /\
  getItem s' (js "someKey") = getItem s (js "someKey").
Proof.
  assert (Hne : js "someKey" <> js "testKey") by discriminate.
  split; [exact Hne|]. split; [reflexivity|].
  destruct (MemoryStorage_setItem_getItem
              (constructor [(js "someKey", js "some value")])
              (js "testKey") (js "testValue") (js "someKey"))
    as (s' & Hset & _ & _ & Hother).
  injection Hset as <-. exact (proj1 (Hother Hne)).
Defined.

(** X2. [removeItem]: the key is gone, every other key is as it was,
    removing twice is removing once, and removing a key the store does not
    hold (or [null]) changes nothing. *)
Theorem MemoryStorage_removeItem_getItem s (key other : jsstring) :
  getItem (removeItem s (Some key)) key = None /\
  hasItem (removeItem s (Some key)) key = false /\
  (other <> key -> getItem (removeItem s (Some key)) other = getItem s other) /\
  removeItem (removeItem s (Some key)) (Some key) = removeItem s (Some key) /\
  (hasItem s key = false -> removeItem s (Some key) = s) /\
  removeItem s None = s.
Proof.
  unfold hasItem. rewrite !getItem_Map_get. simpl. repeat split.
  - apply Map_get_delete_same.
  - apply Map_has_delete.
  - intro Hne. apply Map_get_delete_other. exact Hne.
  - f_equal. apply Map_delete_absent. apply Map_has_delete.
  - intro Habsent. destruct s as [m]. simpl in *. f_equal.
    apply Map_delete_absent. exact Habsent.
Qed.

Lemma MemoryStorage_removeItem_getItem_witness :
  let s := constructor [(js "someKey", js "some value"); (js "anotherKey", js "another value")] in
  js "anotherKey" <> js "someKey" /\
  hasItem s (js "gone") = false /\
  getItem (removeItem s (Some (js "someKey"))) (js "anotherKey") = Some (js "another value") /\
  removeItem s (Some (js "gone")) = s.
Proof.
  assert (Hne : js "anotherKey" <> js "someKey") by discriminate.
  split; [exact Hne|]. split; [reflexivity|]. split.
  - exact (proj1 (proj2 (proj2 (MemoryStorage_removeItem_getItem
             (constructor [(js "someKey", js "some value");
                           (js "anotherKey", js "another value")])
             (js "someKey") (js "anotherKey")))) Hne).
  - reflexivity.
Defined.

Lemma fold_Map_set_keys (entries : list (jsstring * jsstring)) m :
  NoDup (Map_keys m) ->
  NoDup (Map_keys (fold_left (fun m kv => Map_set m (fst kv) (snd kv)) entries m)).
Proof.
  revert m; induction entries as [|[k v] entries IH]; intros m Hm; simpl; [exact Hm|].
  apply IH. rewrite Map_keys_set.
  destruct (Map_has m k) eqn:Hhas; [exact Hm|].
  apply NoDup_app; [exact Hm|repeat constructor; intros []|].
  intros x Hx [<-|[]].
  apply Map_has_In in Hx. congruence.
Qed.

(** X3. The keys of the map are distinct: in the store the constructor
    builds from any list of entries, and after [setItem], [removeItem] and
    [clear] on a store where they are. *)
Theorem MemoryStorage_keys_distinct :
  (forall entries : list (jsstring * jsstring),
      NoDup (Map_keys (items (constructor entries)))) /\
  (forall s key value s',
      NoDup (Map_keys (items s)) ->
      setItem s key value = Return s' ->
      NoDup (Map_keys (items s'))) /\
  (forall s (key : option jsstring),
      NoDup (Map_keys (items s)) ->
      NoDup (Map_keys (items (removeItem s key)))) /\
  (forall s, NoDup (Map_keys (items (clear s)))).
Proof.
  split; [|split; [|split]].
  - intro entries. apply fold_Map_set_keys. constructor.
  - intros s key value s' Hs Hset. injection Hset as <-.
    apply (fold_Map_set_keys [(key, value)] (items s) Hs).
  - intros s [key|] Hs; [|exact Hs]. simpl.
    rewrite Map_keys_delete. apply NoDup_filter. exact Hs.
  - intro s. constructor.
Qed.

Lemma MemoryStorage_keys_distinct_witness :
  let s := constructor [(js "a", js "1"); (js "b", js "2"); (js "a", js "3")] in
  items s = [(js "a", js "3"); (js "b", js "2")] /\
  NoDup (Map_keys (items s)) /\
  NoDup (Map_keys (items (removeItem s (Some (js "a"))))).
Proof.
  split; [reflexivity|].
  assert (H : NoDup (Map_keys (items (constructor
                [(js "a", js "1"); (js "b", js "2"); (js "a", js "3")]))))
    by apply (proj1 MemoryStorage_keys_distinct).
  split; [exact H|].
  apply (proj1 (proj2 (proj2 MemoryStorage_keys_distinct)) _ (Some (js "a")) H).
Defined.

Lemma length_Map_delete m k :
  NoDup (Map_keys m) ->
  List.length (Map_delete m k)
  = if Map_has m k then List.length m - 1 else List.length m.
Proof.
  induction m as [|[k' v'] m IH]; simpl; [reflexivity|].
  intro Hnd. inversion Hnd as [|? ? Hnotin Hnd']; subst.
  destruct (jsstring_eqb k' k) eqn:E; simpl.
  - apply jsstring_eqb_eq in E. subst k'.
    rewrite Map_delete_absent; [lia|].
    destruct (Map_has m k) eqn:Hhas; [|reflexivity].
    apply Map_has_In in Hhas. contradiction.
  - rewrite (IH Hnd'). destruct (Map_has m k) eqn:Hhas; [|reflexivity].
    apply Map_has_In in Hhas. destruct m; [contradiction|]. simpl. lia.
Qed.

(** X4. [length] counts the keys: [setItem] adds one for a key the store
    did not hold and none for one it held; on a store with distinct keys
    [removeItem] takes one off for a key it held and none otherwise. *)
Theorem MemoryStorage_length_counts s (key value : jsstring) :
  (forall s', setItem s key value = Return s' ->
              length s' = if hasItem s key then length s else Datatypes.S (length s)) /\
  (NoDup (Map_keys (items s)) ->
   length (removeItem s (Some key))
   = if hasItem s key then length s - 1 else length s).
Proof.
  split.
  - intros s' Hset. injection Hset as <-.
    unfold length, hasItem. simpl.
    rewrite <- !(length_map fst). fold (Map_keys (Map_set (internalItems s) key value)).
    fold (Map_keys (internalItems s)). rewrite Map_keys_set.
    destruct (Map_has (internalItems s) key); [reflexivity|].
    rewrite length_app. simpl. lia.
  - intro Hnd. unfold length, hasItem. simpl. apply length_Map_delete. exact Hnd.
Qed.

Lemma MemoryStorage_length_counts_witness :
  let s := constructor [(js "someKey", js "some value"); (js "anotherKey", js "another value")] in
  NoDup (Map_keys (items s)) /\
  length (removeItem s (Some (js "someKey"))) = 1 /\
  length (removeItem s (Some (js "notExist"))) = 2.
Proof.
  assert (H : NoDup (Map_keys (items (constructor
                [(js "someKey", js "some value"); (js "anotherKey", js "another value")]))))
    by (apply fold_Map_set_keys; constructor).
  split; [exact H|]. split.
  - exact (proj2 (MemoryStorage_length_counts _ (js "someKey") (js "v")) H).
  - exact (proj2 (MemoryStorage_length_counts _ (js "notExist") (js "v")) H).
Defined.

End MemoryMapping.

(** ** MemoryStorage: the order of the keys *)

Section MemoryOrder.

Import MemoryStorage.

Implicit Types (m : Map) (s : MemoryStorage.t) (k v : jsstring).

Lemma Map_set_absent m k v : Map_has m k = false -> Map_set m k v = m ++ [(k, v)].
Proof.
  induction m as [|[k' v'] m IH]; simpl; [reflexivity|].
  destruct (jsstring_eqb k' k); simpl; [discriminate|].
  intro H. f_equal. apply IH. exact H.
Qed.

Lemma Map_get_app m1 m2 k :
  Map_get (m1 ++ m2) k
  = match Map_get m1 k with Some v => Some v | None => Map_get m2 k end.
Proof.
  induction m1 as [|[k' v'] m1 IH]; simpl; [reflexivity|].
  destruct (jsstring_eqb k' k); [reflexivity|exact IH].
Qed.

Lemma fold_Map_set_get (entries : list (jsstring * jsstring)) m k :
  Map_get (fold_left (fun m kv => Map_set m (fst kv) (snd kv)) entries m) k
  = match Map_get (rev entries) k with Some v => Some v | None => Map_get m k end.
Proof.
  revert m; induction entries as [|[k0 v0] entries IH]; intro m; simpl; [reflexivity|].
  rewrite IH, Map_get_app. destruct (Map_get (rev entries) k); [reflexivity|].
  simpl. destruct (jsstring_eqb k0 k) eqn:E.
  - apply jsstring_eqb_eq in E. subst k0. apply Map_get_set_same.
  - apply Map_get_set_other. apply jsstring_eqb_neq in E. congruence.
Qed.

Lemma fold_Map_set_distinct (entries : list (jsstring * jsstring)) m :
  NoDup (List.map fst entries) ->
  (forall k, In k (List.map fst entries) -> Map_has m k = false) ->
  fold_left (fun m kv => Map_set m (fst kv) (snd kv)) entries m = m ++ entries.
Proof.
  revert m; induction entries as [|[k v] entries IH]; intros m Hnd Hfresh; simpl.
  - rewrite app_nil_r. reflexivity.
  - simpl in Hnd. inversion Hnd as [|? ? Hnotin Hnd']; subst.
    rewrite Map_set_absent by (apply Hfresh; left; reflexivity).
    rewrite IH; [rewrite <- app_assoc; reflexivity|exact Hnd'|].
    intros k' Hin. destruct (Map_has (m ++ [(k, v)]) k') eqn:Hhas; [|reflexivity].
    apply Map_has_In in Hhas. unfold Map_keys in Hhas.
    rewrite map_app in Hhas. apply in_app_or in Hhas as [Hhas|[<-|[]]].
    + apply Map_has_In in Hhas. rewrite Hfresh in Hhas; [discriminate|].
      right. exact Hin.
    + contradiction.
Qed.

(** X5. The constructor reads the entries in order and a later entry
    overwrites an earlier one of the same key: a key holds the value of its
    last entry, and a list of entries with distinct keys, as
    [Object.entries] gives it, is kept as it is. *)
Theorem MemoryStorage_constructor_entries (entries : list (jsstring * jsstring)) :
  (forall key : jsstring,
      getItem (constructor entries) key = Map_get (rev entries) key) /\
  (NoDup (List.map fst entries) -> items (constructor entries) = entries).
Proof.
  split.
  - intro key. rewrite getItem_Map_get. simpl. rewrite fold_Map_set_get.
    destruct (Map_get (rev entries) key); reflexivity.
  - intro Hnd. unfold items, constructor. simpl.
    apply (fold_Map_set_distinct entries [] Hnd). reflexivity.
Qed.

Lemma MemoryStorage_constructor_entries_witness :
  let data := [(js "someKey", js "some value"); (js "anotherKey", js "another value")] in
  NoDup (List.map fst data) /\ items (constructor data) = data.
Proof.
  assert (H : NoDup (List.map fst
                [(js "someKey", js "some value"); (js "anotherKey", js "another value")])).
  { repeat constructor; simpl; intuition discriminate. }
  split; [exact H|].
  exact (proj2 (MemoryStorage_constructor_entries _) H).
Defined.

(** X6. [key(index)] follows the order of insertion: [setItem] on a key
    the store holds moves no key, and [setItem] on a new key, not the
    empty string, puts it at index [length], behind the keys that were
    there. *)
Theorem MemoryStorage_insertion_order s (key value : jsstring) s' :
  setItem s key value = Return s' ->
  (hasItem s key = true ->
   forall index : Z, MemoryStorage.key s' index = MemoryStorage.key s index) /\
  (hasItem s key = false ->
   (key <> [] -> MemoryStorage.key s' (Z.of_nat (length s)) = Some key) /\
   (forall index : Z,
       (index < Z.of_nat (length s))%Z ->
       MemoryStorage.key s' index = MemoryStorage.key s index)).
Proof.
  intro Hset. injection Hset as <-. unfold hasItem, MemoryStorage.key, length. simpl.
  rewrite Map_keys_set. split; intros ->; [reflexivity|].
  assert (Hlen : List.length (Map_keys (internalItems s)) = List.length (internalItems s))
    by apply length_map.
  split.
  - intro Hne.
    destruct (Z.of_nat (List.length (internalItems s)) <? 0)%Z eqn:Hneg;
      [apply Z.ltb_lt in Hneg; lia|].
    rewrite Nat2Z.id, <- Hlen, nth_error_app2, Nat.sub_diag by lia. simpl.
    destruct key; [contradiction|reflexivity].
  - intros index Hlt. destruct (index <? 0)%Z eqn:Hneg; [reflexivity|].
    apply Z.ltb_ge in Hneg. rewrite nth_error_app1 by lia. reflexivity.
Qed.

Lemma MemoryStorage_insertion_order_witness :
  let s := constructor [(js "someKey", js "some value")] in
  let s' := constructor [(js "someKey", js "some value"); (js "testKey", js "testValue")] in
  setItem s (js "testKey") (js "testValue") = Return s' /\
  hasItem s (js "testKey") = false /\
  MemoryStorage.key s' 1 = Some (js "testKey") /\
  MemoryStorage.key s' 0 = MemoryStorage.key s 0.
Proof.
  split; [reflexivity|]. split; [reflexivity|].
  destruct (proj2 (MemoryStorage_insertion_order
                     (constructor [(js "someKey", js "some value")])
                     (js "testKey") (js "testValue") _ eq_refl) eq_refl)
    as [Hlast Hbefore].
  split.
  - apply Hlast. discriminate.
  - apply (Hbefore 0%Z). reflexivity.
Defined.

(** X7. [key(index)] never gives a key the store does not hold: a result
    that is not null is the key at that position, below [length], not
    empty, and [hasItem] is true of it; and every key that is not empty is
    the result at its position. *)
Theorem MemoryStorage_key_in_range s :
  (forall (index : Z) (k : jsstring),
      MemoryStorage.key s index = Some k ->
      (0 <= index < Z.of_nat (length s))%Z /\
      k <> [] /\
      nth_error (Map_keys (items s)) (Z.to_nat index) = Some k /\
      hasItem s k = true) /\
  (forall (position : nat) (k : jsstring),
      nth_error (Map_keys (items s)) position = Some k ->
      k <> [] ->
      MemoryStorage.key s (Z.of_nat position) = Some k).
Proof.
  unfold MemoryStorage.key, items, length, hasItem. split.
  - intros index k. destruct (index <? 0)%Z eqn:Hneg; [discriminate|].
    apply Z.ltb_ge in Hneg.
    destruct (nth_error (Map_keys (internalItems s)) (Z.to_nat index)) as [k'|] eqn:Hn;
      [|discriminate].
    destruct k' as [|c k']; [discriminate|]. simpl. intro H. injection H as <-.
    assert (Hlt : Z.to_nat index < List.length (Map_keys (internalItems s)))
      by (apply nth_error_Some; congruence).
    unfold Map_keys in Hlt. rewrite length_map in Hlt.
    repeat split; try lia; try discriminate.
    apply Map_has_In. eapply nth_error_In. exact Hn.
  - intros position k Hn Hne.
    destruct (Z.of_nat position <? 0)%Z eqn:Hneg; [apply Z.ltb_lt in Hneg; lia|].
    rewrite Nat2Z.id, Hn. destruct k; [contradiction|reflexivity].
Qed.

Lemma MemoryStorage_key_in_range_witness :
  let s := constructor [(js "someKey", js "some value"); (js "anotherKey", js "another value")] in
  MemoryStorage.key s 1 = Some (js "anotherKey") /\
  hasItem s (js "anotherKey") = true.
Proof.
  split; [reflexivity|].
  apply (proj1 (MemoryStorage_key_in_range
                  (constructor [(js "someKey", js "some value");
                                (js "anotherKey", js "another value")]))
               1%Z (js "anotherKey")).
  reflexivity.
Defined.

End MemoryOrder.

#[export] Instance MemoryStorage_frame : StorageFrame MemoryStorage.t.
Proof.
  constructor.
  - intros s s' key value other Hset Hne. simpl in *.
    unfold MemoryStorage.setItem in Hset. injection Hset as <-.
    rewrite !getItem_Map_get. simpl. apply Map_get_set_other. exact Hne.
  - intros s key. simpl. rewrite getItem_Map_get. simpl. apply Map_get_delete_same.
Qed.

#[export] Instance QuotaStorage_frame : StorageFrame QuotaStorage.t.
Proof.
  constructor.
  - intros s s' key value other Hset Hne. simpl in *.
    unfold QuotaStorage.setItem in Hset.
    destruct (QuotaStorage.size (MemoryStorage.Map_set (QuotaStorage.area s) key value)
              <=? QuotaStorage.quota s); [|discriminate].
    injection Hset as <-. unfold QuotaStorage.getItem. simpl.
    apply Map_get_set_other. exact Hne.
  - intros s key. simpl. unfold QuotaStorage.getItem. simpl.
    apply Map_get_delete_same.
Qed.

(** ** The explicit methods on one facade *)

Section OneFacade.

Context {S : Type} {store : Storage.api S}
        {contract : StorageContract S} {frame : StorageFrame S}
        {V : Type} {json : JSON.codec V}.

Implicit Types (this : WebStorage.t S) (key other : jsstring).

Lemma keyWithNamespace_injective this key other :
  WebStorage.keyWithNamespace this key = WebStorage.keyWithNamespace this other ->
  key = other.
Proof.
  unfold WebStorage.keyWithNamespace.
  destruct (WebStorage.namespace this) as [ns|]; [|auto].
  intro H. apply app_inv_head in H. congruence.
Qed.

Lemma get_over_same_item this (storage' : S) key (defaultValue : V) :
  Storage.getItem storage' (WebStorage.keyWithNamespace this key)
  = Storage.getItem (WebStorage.storage this) (WebStorage.keyWithNamespace this key) ->
  WebStorage.has (over this storage') key = WebStorage.has this key /\
  WebStorage.get (over this storage') key defaultValue
  = WebStorage.get this key defaultValue.
Proof.
  intro H. unfold WebStorage.has, WebStorage.get.
  change (WebStorage.keyWithNamespace (over this storage') key)
    with (WebStorage.keyWithNamespace this key).
  simpl. rewrite H. split; reflexivity.
Qed.

(** X8. [delete(key)] returns true, also for a key that is not there;
    afterwards [has(key)] is false and [get(key, d)] returns [d], and
    [has] and [get] of every other key of the facade are as before. *)
Theorem delete_then_absent this key :
  exists this',
    WebStorage.delete this key = Return (true, this') /\
    WebStorage.has this' key = Return false /\
    (forall defaultValue : V,
        WebStorage.get this' key defaultValue = Return defaultValue) /\
    (forall other (defaultValue : V),
        other <> key ->
        WebStorage.has this' other = WebStorage.has this other /\
        WebStorage.get this' other defaultValue
        = WebStorage.get this other defaultValue).
Proof.
  eexists. split; [reflexivity|].
  unfold WebStorage.has, WebStorage.get. simpl.
  change (WebStorage.keyWithNamespace _ key)
    with (WebStorage.keyWithNamespace this key).
  rewrite getItem_removeItem. split; [reflexivity|]. split; [reflexivity|].
  intros other defaultValue Hne.
  apply (get_over_same_item this
           (Storage.removeItem (WebStorage.storage this)
              (Some (WebStorage.keyWithNamespace this key)))
           other defaultValue).
  apply getItem_removeItem_other. simpl. intro Heq.
  apply keyWithNamespace_injective in Heq. congruence.
Qed.

(** X9. [set(key, value)] that returns true makes [has(key)] true, and
    whatever it returns it leaves [has] and [get] of every other key of the
    facade as before. *)
Theorem set_leaves_other_keys this key (value : V) (result : bool) this' :
  WebStorage.set this key value = Return (result, this') ->
  (result = true -> WebStorage.has this' key = Return true) /\
  (forall other (defaultValue : V),
      other <> key ->
      WebStorage.has this' other = WebStorage.has this other /\
      WebStorage.get this' other defaultValue
      = WebStorage.get this other defaultValue).
Proof.
  intro Hset. unfold WebStorage.set in Hset.
  destruct (JSON.stringify value) as [text|e]; simpl in Hset;
    [|injection Hset as <- <-; split; [discriminate|auto]].
  destruct (Storage.setItem (WebStorage.storage this)
              (WebStorage.keyWithNamespace this key) text) as [storage'|e] eqn:Hstore;
    simpl in Hset; injection Hset as <- <-; [|split; [discriminate|auto]].
  split.
  - intros _. unfold WebStorage.has. simpl.
    change (WebStorage.keyWithNamespace _ key)
      with (WebStorage.keyWithNamespace this key).
    apply getItem_setItem in Hstore. rewrite Hstore. reflexivity.
  - intros other defaultValue Hne.
    apply (get_over_same_item this storage' other defaultValue).
    eapply getItem_setItem_other; [exact Hstore|].
    intro Heq. apply keyWithNamespace_injective in Heq. congruence.
Qed.

End OneFacade.

Lemma delete_then_absent_witness :
  let this := Fixture.nsStorage in
  WebStorage.has this (js "nsSimpleKey") = Return true /\
  js "nsObjectKey" <> js "nsSimpleKey" /\
  exists this',
    WebStorage.delete this (js "nsSimpleKey") = Return (true, this') /\
    WebStorage.has this' (js "nsSimpleKey") = Return false /\
    WebStorage.has this' (js "nsObjectKey") = Return true.
Proof.
  assert (Hne : js "nsObjectKey" <> js "nsSimpleKey") by discriminate.
  split; [reflexivity|]. split; [exact Hne|].
  destruct (@delete_then_absent _ _ MemoryStorage_contract MemoryStorage_frame
              MiniJSON.value _ Fixture.nsStorage (js "nsSimpleKey"))
    as (this' & Hdelete & Hhas & _ & Hother).
  exists this'. split; [exact Hdelete|]. split; [exact Hhas|].
  rewrite (proj1 (Hother (js "nsObjectKey") MiniJSON.JNull Hne)). reflexivity.
Defined.

Lemma set_leaves_other_keys_witness :
  let this := Fixture.storage in
  let this' :=
    over this
         (MemoryStorage.constructor
            [(js "simpleKey", Fixture.quoted "value");
             (js "namespace/nsSimpleKey", Fixture.quoted "namespace value");
             (js "objectKey", js "[1,2]");
             (js "namespace/nsObjectKey", js "[true]");
             (js "newKey", js "[1,2,3]")]) in
  let value := MiniJSON.JArray [MiniJSON.JNumber 1; MiniJSON.JNumber 2; MiniJSON.JNumber 3] in
  WebStorage.set this (js "newKey") value = Return (true, this') /\
  js "simpleKey" <> js "newKey" /\
  WebStorage.has this' (js "newKey") = Return true /\
  WebStorage.get this' (js "simpleKey") MiniJSON.JNull
  = WebStorage.get this (js "simpleKey") MiniJSON.JNull.
Proof.
  intros this this' value.
  assert (Hset : WebStorage.set this (js "newKey") value = Return (true, this'))
    by reflexivity.
  assert (Hne : js "simpleKey" <> js "newKey") by discriminate.
  destruct (@set_leaves_other_keys _ _ MemoryStorage_contract MemoryStorage_frame
              _ _ this (js "newKey") value true this' Hset) as [Hhas Hother].
  split; [exact Hset|]. split; [exact Hne|]. split; [exact (Hhas eq_refl)|].
  exact (proj2 (Hother (js "simpleKey") MiniJSON.JNull Hne)).
Defined.

(** ** What [getStorageKeys] lists *)

Section Listing.

Context {S : Type} {store : Storage.api S}.

Implicit Types (this : WebStorage.t S) (keys : list (option jsstring)).

Lemma visit_all_strings this (physical : list jsstring) keys :
  visit_all this (List.map Some physical) keys
  = Return (keys ++ List.map (fun p => Some (decode this p))
                             (filter (in_view this) physical)).
Proof.
  revert keys; induction physical as [|p physical IH]; intro keys; simpl.
  - rewrite app_nil_r. reflexivity.
  - rewrite visit_string. simpl. rewrite IH.
    destruct (in_view this p); simpl; rewrite <- app_assoc; reflexivity.
Qed.

Lemma visit_all_without_namespace this (physical : list (option jsstring)) keys :
  WebStorage.namespace this = None ->
  visit_all this physical keys
  = Return (keys ++ filter (fun key => negb (RegExp_test (ToString key))) physical).
Proof.
  intro Hns. revert keys; induction physical as [|p physical IH]; intro keys; simpl.
  - rewrite app_nil_r. reflexivity.
  - unfold WebStorage.visit. rewrite Hns.
    destruct (negb (RegExp_test (ToString p))); simpl; rewrite IH.
    + rewrite <- app_assoc. reflexivity.
    + rewrite app_nil_r. reflexivity.
Qed.

Lemma visit_all_throws this (physical : list (option jsstring)) keys (e : exn) :
  visit_all this physical keys = Throw e ->
  e = TypeError /\ WebStorage.hasNamespace this = true /\ In None physical.
Proof.
  revert keys; induction physical as [|p physical IH]; intro keys; simpl;
    [discriminate|].
  destruct (WebStorage.visit this p) as [pushed|e'] eqn:Hvisit; simpl.
  - intro H. destruct (IH _ H) as (He & Hns & Hin). auto.
  - intro H. injection H as <-. unfold WebStorage.visit, WebStorage.hasNamespace in *.
    destruct (WebStorage.namespace this) as [ns|].
    + destruct p as [p|]; [destruct (startsWith p (ns ++ [slash])); discriminate|].
      injection Hvisit as <-. auto.
    + destruct (negb (RegExp_test (ToString p))); discriminate.
Qed.

Lemma visit_all_null_key this (physical : list (option jsstring)) keys :
  WebStorage.hasNamespace this = true ->
  In None physical ->
  visit_all this physical keys = Throw TypeError.
Proof.
  intros Hns. unfold WebStorage.hasNamespace in Hns.
  revert keys; induction physical as [|p physical IH]; intros keys Hin; simpl;
    [contradiction|].
  unfold WebStorage.visit at 1.
  destruct (WebStorage.namespace this) as [ns|]; [|discriminate].
  destruct p as [p|]; [|reflexivity].
  destruct Hin as [Hin|Hin]; [discriminate|].
  destruct (startsWith p (ns ++ [slash])); simpl; apply IH; exact Hin.
Qed.

Lemma visit_all_length this (physical : list (option jsstring)) keys keys' :
  visit_all this physical keys = Return keys' ->
  List.length keys' <= List.length keys + List.length physical.
Proof.
  revert keys; induction physical as [|p physical IH]; intro keys; simpl.
  - intro H. injection H as <-. lia.
  - destruct (WebStorage.visit this p) as [pushed|e] eqn:Hvisit; simpl; [|discriminate].
    intro H. apply IH in H. rewrite length_app in H.
    assert (List.length pushed <= 1); [|lia].
    unfold WebStorage.visit in Hvisit.
    destruct (WebStorage.namespace this) as [ns|].
    + destruct p as [p|]; [|discriminate].
      destruct (startsWith p (ns ++ [slash])); injection Hvisit as <-; simpl; lia.
    + destruct (negb (RegExp_test (ToString p))); injection Hvisit as <-; simpl; lia.
Qed.

Lemma visit_all_keeps this (physical : list (option jsstring)) keys keys'
      (key : option jsstring) :
  visit_all this physical keys = Return keys' -> In key keys -> In key keys'.
Proof.
  revert keys; induction physical as [|q physical IH]; intros keys H Hin; simpl in H.
  - injection H as <-. exact Hin.
  - destruct (WebStorage.visit this q) as [pushed|e]; simpl in H; [|discriminate].
    apply (IH _ H). apply in_or_app. left. exact Hin.
Qed.

Lemma visit_all_lists this (physical : list (option jsstring)) keys keys' (p : jsstring) :
  visit_all this physical keys = Return keys' ->
  In (Some p) physical ->
  in_view this p = true ->
  In (Some (decode this p)) keys'.
Proof.
  revert keys; induction physical as [|q physical IH]; intros keys H Hin Hview;
    simpl in *; [contradiction|].
  destruct (WebStorage.visit this q) as [pushed|e] eqn:Hvisit; simpl in H; [|discriminate].
  destruct Hin as [->|Hin]; [|eapply IH; eassumption].
  rewrite visit_string, Hview in Hvisit. injection Hvisit as <-.
  apply (visit_all_keeps _ _ _ _ _ H). apply in_or_app. right. left. reflexivity.
Qed.

Lemma visit_all_listed_from this (physical : list (option jsstring)) keys keys'
      (key : jsstring) :
  visit_all this physical keys = Return keys' ->
  In (Some key) keys' ->
  In (Some key) keys \/
  exists p, In (Some p) physical /\ in_view this p = true /\ key = decode this p.
Proof.
  revert keys; induction physical as [|q physical IH]; intros keys H Hin; simpl in H.
  - injection H as <-. left. exact Hin.
  - destruct (WebStorage.visit this q) as [pushed|e] eqn:Hvisit; simpl in H; [|discriminate].
    destruct (IH _ H Hin) as [Hacc|(p & Hp & Hview & Hkey)].
    + apply in_app_or in Hacc as [Hacc|Hpushed]; [left; exact Hacc|].
      right. destruct q as [q|].
      * rewrite visit_string in Hvisit. injection Hvisit as <-.
        destruct (in_view this q) eqn:Hview; [|contradiction].
        destruct Hpushed as [Heq|[]]. injection Heq as <-.
        exists q. simpl. auto.
      * unfold WebStorage.visit in Hvisit.
        destruct (WebStorage.namespace this); [discriminate|].
        destruct (negb (RegExp_test (ToString None))); injection Hvisit as <-;
          [destruct Hpushed as [Heq|[]]; discriminate|contradiction].
    + right. exists p. simpl. auto.
Qed.

End Listing.

(** X10. The one fault of [getStorageKeys], and so of [keys()], [length],
    [clear()] and the iterators: a facade without namespace always gets
    its list; a facade with a namespace gets a TypeError, and nothing
    else, exactly when the store answers [key(index)] with null at an
    index below its [length]. *)
Theorem getStorageKeys_faults {S : Type} {store : Storage.api S} (this : WebStorage.t S) :
  (WebStorage.hasNamespace this = false ->
   exists keys, WebStorage.getStorageKeys this = Return keys) /\
  (forall e : exn,
      WebStorage.getStorageKeys this = Throw e ->
      e = TypeError /\
      WebStorage.hasNamespace this = true /\
      exists index : Z,
        (0 <= index < Z.of_nat (Storage.length (WebStorage.storage this)))%Z /\
        Storage.key (WebStorage.storage this) index = None) /\
  (WebStorage.hasNamespace this = true ->
   forall index : Z,
     (0 <= index < Z.of_nat (Storage.length (WebStorage.storage this)))%Z ->
     Storage.key (WebStorage.storage this) index = None ->
     WebStorage.getStorageKeys this = Throw TypeError).
Proof.
  unfold WebStorage.getStorageKeys. rewrite getStorageKeys_loop_visit_all.
  split; [|split].
  - unfold WebStorage.hasNamespace.
    destruct (WebStorage.namespace this) eqn:Hns; [discriminate|]. intros _.
    rewrite (visit_all_without_namespace this _ _ Hns). eauto.
  - intros e H. apply visit_all_throws in H as (He & Hns & Hin).
    split; [exact He|]. split; [exact Hns|].
    apply in_map_iff in Hin as (j & Hkey & Hj). apply in_seq in Hj.
    exists (0 + Z.of_nat j)%Z. split; [lia|exact Hkey].
  - intros Hns index Hrange Hkey. apply visit_all_null_key; [exact Hns|].
    apply in_map_iff. exists (Z.to_nat index). split.
    + rewrite Z2Nat.id by lia. exact Hkey.
    + apply in_seq. lia.
Qed.

Lemma getStorageKeys_faults_witness :
  let s := MemoryStorage.constructor [(js "ns/k", js "1"); (js "", js "2")] in
  let this := WebStorage.constructor s (Some (js "ns")) in
  WebStorage.hasNamespace this = true /\
  (0 <= 1 < Z.of_nat (Storage.length s))%Z /\
  Storage.key s 1 = None /\
  WebStorage.getStorageKeys this = Throw TypeError /\
  WebStorage.hasNamespace (WebStorage.constructor s None) = false /\
  exists keys, WebStorage.getStorageKeys (WebStorage.constructor s None) = Return keys.
Proof.
  intros s this.
  assert (Hrange : (0 <= 1 < Z.of_nat (Storage.length s))%Z) by (vm_compute; split; congruence).
  split; [reflexivity|]. split; [exact Hrange|]. split; [reflexivity|]. split.
  - exact (proj2 (proj2 (getStorageKeys_faults this)) eq_refl 1%Z Hrange eq_refl).
  - split; [reflexivity|].
    exact (proj1 (getStorageKeys_faults (WebStorage.constructor s None)) eq_refl).
Defined.

(** X11. [length] of a facade is never more than [length] of its store. *)
Theorem length_at_most_storage_length {S : Type} {store : Storage.api S}
        (this : WebStorage.t S) (n : nat) :
  WebStorage.length this = Return n ->
  n <= Storage.length (WebStorage.storage this).
Proof.
  unfold WebStorage.length, WebStorage.getStorageKeys.
  rewrite getStorageKeys_loop_visit_all.
  destruct (visit_all this _ []) as [keys|e] eqn:H; simpl; [|discriminate].
  intro Hn. injection Hn as <-.
  apply visit_all_length in H. rewrite length_map, length_seq in H. exact H.
Qed.

Lemma length_at_most_storage_length_witness :
  WebStorage.length Fixture.nsStorage = Return 2 /\
  2 <= Storage.length (WebStorage.storage Fixture.nsStorage).
Proof.
  split; [reflexivity|].
  apply (length_at_most_storage_length Fixture.nsStorage 2). reflexivity.
Defined.

(** ** The facade over the in-memory store *)

Section MemoryFacade.

Import MemoryStorage.

Implicit Types (this : WebStorage.t MemoryStorage.t) (keys : list (option jsstring)).

Lemma or_null_Some (l : list jsstring) :
  ~ In [] l -> List.map or_null l = List.map Some l.
Proof.
  induction l as [|k l IH]; simpl; [reflexivity|].
  intro H. rewrite IH by tauto.
  destruct k; [exfalso; apply H; left; reflexivity|reflexivity].
Qed.

Lemma or_null_In (l : list jsstring) (p : jsstring) :
  In (Some p) (List.map or_null l) <-> In p l /\ p <> [].
Proof.
  rewrite in_map_iff. split.
  - intros (k & Hk & Hin). destruct k; [discriminate|].
    injection Hk as <-. split; [exact Hin|discriminate].
  - intros [Hin Hne]. exists p. split; [|exact Hin].
    destruct p; [contradiction|reflexivity].
Qed.

Lemma or_null_None (l : list jsstring) :
  In None (List.map or_null l) <-> In [] l.
Proof.
  rewrite in_map_iff. split.
  - intros (k & Hk & Hin). destruct k; [exact Hin|discriminate].
  - intro Hin. exists []. auto.
Qed.

Lemma decode_NoDup this (physical : list jsstring) :
  NoDup physical ->
  NoDup (List.map (fun p => Some (decode this p)) (filter (in_view this) physical)).
Proof.
  induction 1 as [|p physical Hnotin Hnd IH]; simpl; [constructor|].
  destruct (in_view this p) eqn:Hview; [|exact IH].
  simpl. constructor; [|exact IH].
  intro Hin. apply in_map_iff in Hin as (q & Heq & Hq).
  apply filter_In in Hq as [Hq Hqview]. injection Heq as Heq.
  apply Hnotin.
  rewrite <- (encode_decode this p Hview), <- Heq, (encode_decode this q Hqview).
  exact Hq.
Qed.

Lemma or_null_NoDup (l : list jsstring) : NoDup l -> NoDup (List.map or_null l).
Proof.
  induction 1 as [|k l Hnotin Hnd IH]; simpl; [constructor|].
  constructor; [|exact IH].
  intro Hin. apply Hnotin. destruct k as [|c k].
  - apply or_null_None. exact Hin.
  - apply or_null_In in Hin. tauto.
Qed.

Lemma keys_of_nonempty_keys this :
  ~ In [] (Map_keys (items (WebStorage.storage this))) ->
  WebStorage.getStorageKeys this
  = Return (List.map (fun p => Some (decode this p))
                     (filter (in_view this) (Map_keys (items (WebStorage.storage this))))).
Proof.
  intro Hne. rewrite MemoryStorage_getStorageKeys.
  unfold items in *. rewrite (or_null_Some _ Hne), visit_all_strings. reflexivity.
Qed.

(** X12. Over an in-memory store without the empty key, [keys()] is the
    keys of the store in their order, those that pass the test of the view
    (the prefix of the namespace, or the slash pattern not matching), each
    without the prefix. *)
Theorem MemoryStorage_keys_filtered this :
  ~ In [] (Map_keys (items (WebStorage.storage this))) ->
  WebStorage.keys this
  = Return (List.map (fun p => Some (decode this p))
                     (filter (in_view this) (Map_keys (items (WebStorage.storage this))))).
Proof.
  intro Hne. unfold WebStorage.keys. apply keys_of_nonempty_keys. exact Hne.
Qed.

Lemma MemoryStorage_keys_filtered_witness :
  ~ In [] (Map_keys (items (WebStorage.storage Fixture.nsStorage))) /\
  WebStorage.keys Fixture.nsStorage
  = Return [Some (js "nsSimpleKey"); Some (js "nsObjectKey")].
Proof.
  assert (H : ~ In [] (Map_keys (items (WebStorage.storage Fixture.nsStorage)))).
  { vm_compute. intuition discriminate. }
  split; [exact H|].
  exact (MemoryStorage_keys_filtered Fixture.nsStorage H).
Defined.

(** X13. Over an in-memory store with distinct keys, [keys()] lists no key
    twice. *)
Theorem MemoryStorage_keys_no_duplicates this keys :
  NoDup (Map_keys (items (WebStorage.storage this))) ->
  WebStorage.keys this = Return keys ->
  NoDup keys.
Proof.
  intros Hnd. unfold WebStorage.keys. rewrite MemoryStorage_getStorageKeys.
  unfold items in *. intro H.
  destruct (WebStorage.namespace this) as [ns|] eqn:Hns.
  - destruct (in_dec (list_eq_dec N.eq_dec) [] (Map_keys (internalItems (WebStorage.storage this))))
      as [Hin|Hnotin].
    + rewrite visit_all_null_key in H; [discriminate| |apply or_null_None; exact Hin].
      unfold WebStorage.hasNamespace. rewrite Hns. reflexivity.
    + rewrite (or_null_Some _ Hnotin), visit_all_strings in H. injection H as <-.
      simpl. apply decode_NoDup. exact Hnd.
  - rewrite (visit_all_without_namespace this _ _ Hns) in H. injection H as <-.
    simpl. apply NoDup_filter. apply or_null_NoDup. exact Hnd.
Qed.

Lemma MemoryStorage_keys_no_duplicates_witness :
  NoDup (Map_keys (items (WebStorage.storage Fixture.storage))) /\
  WebStorage.keys Fixture.storage = Return [Some (js "simpleKey"); Some (js "objectKey")] /\
  NoDup [Some (js "simpleKey"); Some (js "objectKey")].
Proof.
  assert (H : NoDup (Map_keys (items (WebStorage.storage Fixture.storage))))
    by (apply fold_Map_set_keys; constructor).
  split; [exact H|]. split; [reflexivity|].
  apply (MemoryStorage_keys_no_duplicates Fixture.storage _ H). reflexivity.
Defined.

End MemoryFacade.

Section MemoryFacadeEntries.

Import MemoryStorage.

Context {V : Type} {json : JSON.codec V}.

Implicit Types (this : WebStorage.t MemoryStorage.t) (keys : list (option jsstring)).

Lemma keyWithNamespace_nullable_Some this (key : jsstring) :
  WebStorage.keyWithNamespace_nullable this (Some key)
  = Some (WebStorage.keyWithNamespace this key).
Proof.
  unfold WebStorage.keyWithNamespace_nullable, WebStorage.keyWithNamespace.
  destruct (WebStorage.namespace this); reflexivity.
Qed.

Lemma removeItem_keys (s : MemoryStorage.t) (removed : option jsstring) (p : jsstring) :
  In p (Map_keys (items (removeItem s removed))) ->
  In p (Map_keys (items s)) /\ removed <> Some p.
Proof.
  destruct removed as [q|]; simpl; [|intro H; split; [exact H|discriminate]].
  rewrite Map_keys_delete. intro H. apply filter_In in H as [Hin Hne].
  split; [exact Hin|]. intro Heq. injection Heq as ->.
  rewrite jsstring_eqb_refl in Hne. discriminate.
Qed.

Lemma clear_loop_keys this keys (s : MemoryStorage.t) (p : jsstring) :
  In p (Map_keys (items
          (fold_left (fun s key => Storage.removeItem s
                                     (WebStorage.keyWithNamespace_nullable this key))
                     keys s))) ->
  In p (Map_keys (items s)) /\
  forall key : jsstring, In (Some key) keys -> WebStorage.keyWithNamespace this key <> p.
Proof.
  revert s; induction keys as [|key keys IH]; intros s H; simpl in H.
  - split; [exact H|]. intros key [].
  - apply IH in H as [Hin Hrest].
    apply removeItem_keys in Hin as [Hin Hne].
    split; [exact Hin|]. intros k [->|Hk]; [|apply Hrest; exact Hk].
    rewrite keyWithNamespace_nullable_Some in Hne. congruence.
Qed.

Lemma listed_key_in_store this keys (key : jsstring) :
  WebStorage.getStorageKeys this = Return keys ->
  In (Some key) keys ->
  exists text,
    Storage.getItem (WebStorage.storage this) (WebStorage.keyWithNamespace this key)
    = Some text.
Proof.
  rewrite MemoryStorage_getStorageKeys. intros H Hin.
  apply (visit_all_listed_from _ _ _ _ _ H) in Hin as [[]|(p & Hp & Hview & ->)].
  apply or_null_In in Hp as [Hp _]. apply Map_has_In in Hp.
  rewrite (encode_decode this p Hview).
  simpl. unfold getItem. rewrite Hp. rewrite Map_has_get in Hp.
  destruct (Map_get (internalItems (WebStorage.storage this)) p); [eauto|discriminate].
Qed.

(** X14. Over the in-memory store, every key that [keys()] lists is in
    the store: [has] is true of it. *)
Theorem listed_keys_are_present this keys (key : jsstring) :
  WebStorage.keys this = Return keys ->
  In (Some key) keys ->
  WebStorage.has this key = Return true.
Proof.
  intros H Hin. destruct (listed_key_in_store this keys key H Hin) as [text Htext].
  unfold WebStorage.has. rewrite Htext. reflexivity.
Qed.

Lemma listed_keys_are_present_witness :
  WebStorage.keys Fixture.nsStorage
  = Return [Some (js "nsSimpleKey"); Some (js "nsObjectKey")] /\
  WebStorage.has Fixture.nsStorage (js "nsObjectKey") = Return true.
Proof.
  split; [reflexivity|].
  apply (listed_keys_are_present Fixture.nsStorage
           [Some (js "nsSimpleKey"); Some (js "nsObjectKey")] (js "nsObjectKey"));
    [reflexivity|right; left; reflexivity].
Defined.

(** X15. Over the in-memory store, a key that [set] wrote is listed by
    [keys()] of the facade, when [keys()] returns: always in a facade with
    a namespace, and in a facade without for a key that is not empty and
    that the slash pattern does not match. *)
Theorem set_key_is_listed this (key : jsstring) (value : V) this' keys :
  WebStorage.set this key value = Return (true, this') ->
  WebStorage.hasNamespace this = true \/ (key <> [] /\ RegExp_test key = false) ->
  WebStorage.keys this' = Return keys ->
  In (Some key) keys.
Proof.
  intros Hset Hkey. unfold WebStorage.set in Hset.
  destruct (JSON.stringify value) as [text|e]; simpl in Hset; [|discriminate].
  injection Hset as <-.
  unfold WebStorage.keys. rewrite MemoryStorage_getStorageKeys. simpl. intro H.
  set (p := WebStorage.keyWithNamespace this key) in *.
  set (this' := {| WebStorage.storage := _; WebStorage.currentNamespace := _ |}) in *.
  assert (Hview : in_view this' p = true /\ p <> []).
  { unfold in_view, p, WebStorage.keyWithNamespace, WebStorage.hasNamespace in *.
    change (WebStorage.namespace this') with (WebStorage.namespace this).
    destruct (WebStorage.namespace this) as [ns|].
    - split; [|destruct ns; discriminate].
      change (ns ++ slash :: key) with (ns ++ [slash] ++ key).
      rewrite app_assoc. apply startsWith_app.
    - destruct Hkey as [Hkey|[Hne Htest]]; [discriminate|].
      rewrite Htest. auto. }
  destruct Hview as [Hview Hne].
  assert (Hin : In (Some p) (List.map or_null
                               (Map_keys (Map_set (internalItems (WebStorage.storage this))
                                                  p text)))).
  { apply or_null_In. split; [|exact Hne]. apply Map_has_In.
    rewrite Map_has_get, Map_get_set_same. reflexivity. }
  pose proof (visit_all_lists _ _ _ _ _ H Hin Hview) as Hlisted.
  replace (decode this' p) with key in Hlisted; [exact Hlisted|].
  symmetry. apply (decode_encode this key).
Qed.

(** X16. Over the in-memory store, after [clear()] the facade lists no key
    any more ([keys()] is empty when the store has no empty key; the null
    that stands for the empty key stays), and [has] is false of every key
    it listed before. *)
Theorem clear_empties_view this this' :
  WebStorage.clear this = Return this' ->
  (exists keys', WebStorage.keys this' = Return keys' /\
                 forall key : jsstring, ~ In (Some key) keys') /\
  (~ In [] (Map_keys (items (WebStorage.storage this))) ->
   WebStorage.keys this' = Return []) /\
  (forall keys (key : jsstring),
      WebStorage.keys this = Return keys ->
      In (Some key) keys ->
      WebStorage.has this' key = Return false).
Proof.
  unfold WebStorage.clear.
  destruct (WebStorage.getStorageKeys this) as [keys|e] eqn:Hkeys; simpl; [|discriminate].
  intro H. injection H as <-.
  set (s' := fold_left _ keys (WebStorage.storage this)).
  set (this' := {| WebStorage.storage := s'; WebStorage.currentNamespace := _ |}).
  assert (Hleft : forall p, In p (Map_keys (items s')) ->
                            p = [] \/ in_view this p = false).
  { intros p Hp. apply clear_loop_keys in Hp as [Hp Hremoved].
    destruct p as [|c p]; [left; reflexivity|right].
    destruct (in_view this (c :: p)) eqn:Hview; [exfalso|reflexivity].
    rewrite MemoryStorage_getStorageKeys in Hkeys.
    assert (Hin : In (Some (c :: p))
                     (List.map or_null (Map_keys (internalItems (WebStorage.storage this)))))
      by (apply or_null_In; split; [exact Hp|discriminate]).
    pose proof (visit_all_lists _ _ _ _ _ Hkeys Hin Hview) as Hlisted.
    apply (Hremoved _ Hlisted). apply encode_decode. exact Hview. }
  assert (Hnone : forall keys', WebStorage.keys this' = Return keys' ->
                                forall key, ~ In (Some key) keys').
  { intros keys' H key Hin. unfold WebStorage.keys in H.
    rewrite MemoryStorage_getStorageKeys in H.
    apply (visit_all_listed_from _ _ _ _ _ H) in Hin as [[]|(p & Hp & Hview & _)].
    apply or_null_In in Hp as [Hp Hne].
    destruct (Hleft p Hp) as [->|Hout]; [contradiction|].
    change (in_view this' p) with (in_view this p) in Hview. congruence. }
  assert (Hempty : In [] (Map_keys (items s')) ->
                   In [] (Map_keys (items (WebStorage.storage this)))).
  { intro Hp. apply clear_loop_keys in Hp. tauto. }
  split; [|split].
  - destruct (WebStorage.keys this') as [keys'|e] eqn:H; [eauto|exfalso].
    unfold WebStorage.keys in H. rewrite MemoryStorage_getStorageKeys in H.
    apply visit_all_throws in H as (_ & Hns & Hnull).
    apply or_null_None, Hempty, or_null_None in Hnull.
    rewrite MemoryStorage_getStorageKeys in Hkeys.
    rewrite (visit_all_null_key this _ _ Hns Hnull) in Hkeys. discriminate.
  - intro Hne.
    assert (Hne' : ~ In [] (Map_keys (items (WebStorage.storage this')))) by tauto.
    pose proof (keys_of_nonempty_keys this' Hne') as H.
    specialize (Hnone _ H).
    destruct (filter (in_view this') (Map_keys (items (WebStorage.storage this'))))
      as [|p rest]; [exact H|].
    exfalso. apply (Hnone (decode this' p)). left. reflexivity.
  - intros keys0 key H Hin. unfold WebStorage.keys in H. rewrite Hkeys in H.
    injection H as <-.
    unfold WebStorage.has.
    change (WebStorage.keyWithNamespace this' key)
      with (WebStorage.keyWithNamespace this key).
    simpl. unfold getItem.
    destruct (Map_has (internalItems s') (WebStorage.keyWithNamespace this key)) eqn:Hhas;
      [exfalso|reflexivity].
    apply Map_has_In in Hhas. apply clear_loop_keys in Hhas as [_ Hremoved].
    exact (Hremoved key Hin eq_refl).
Qed.

Lemma clear_empties_view_witness :
  let cleared :=
    MemoryStorage.constructor
      [(js "simpleKey", Fixture.quoted "value"); (js "objectKey", js "[1,2]")] in
  WebStorage.clear Fixture.nsStorage = Return (over Fixture.nsStorage cleared) /\
  ~ In [] (Map_keys (items (WebStorage.storage Fixture.nsStorage))) /\
  WebStorage.keys (over Fixture.nsStorage cleared) = Return [] /\
  WebStorage.has (over Fixture.nsStorage cleared) (js "nsSimpleKey") = Return false.
Proof.
  intro cleared.
  assert (Hclear : WebStorage.clear Fixture.nsStorage
                   = Return (over Fixture.nsStorage cleared)) by reflexivity.
  assert (Hne : ~ In [] (Map_keys (items (WebStorage.storage Fixture.nsStorage)))).
  { vm_compute. intuition discriminate. }
  destruct (clear_empties_view Fixture.nsStorage _ Hclear) as (_ & Hempty & Hhas).
  split; [exact Hclear|]. split; [exact Hne|]. split; [exact (Hempty Hne)|].
  apply (Hhas [Some (js "nsSimpleKey"); Some (js "nsObjectKey")] (js "nsSimpleKey"));
    [reflexivity|left; reflexivity].
Defined.

End MemoryFacadeEntries.

Lemma set_key_is_listed_witness :
  let this := WebStorage.constructor (MemoryStorage.constructor []) (Some (js "ns")) in
  let this' := over this (MemoryStorage.constructor [(js "ns/a/b", js "1")]) in
  WebStorage.hasNamespace this = true /\
  WebStorage.set this (js "a/b") (MiniJSON.JNumber 1) = Return (true, this') /\
  WebStorage.keys this' = Return [Some (js "a/b")] /\
  In (Some (js "a/b")) [Some (js "a/b")].
Proof.
  intros this this'.
  assert (Hset : WebStorage.set this (js "a/b") (MiniJSON.JNumber 1) = Return (true, this'))
    by reflexivity.
  assert (Hkeys : WebStorage.keys this' = Return [Some (js "a/b")]) by reflexivity.
  split; [reflexivity|]. split; [exact Hset|]. split; [exact Hkeys|].
  exact (set_key_is_listed this (js "a/b") (MiniJSON.JNumber 1) this' _
           Hset (or_introl eq_refl) Hkeys).
Defined.

(** ** The iterators, where no member is in the way *)

Section IteratorValues.

Context {V : Type} {json : JSON.codec V}.

Lemma yields_In {S : Type} {store : Storage.api S} (this : WebStorage.t S)
      (keys : list (option jsstring)) (value : WebStorage.property V)
      (key : option jsstring) :
  In (Return (value, key)) (WebStorage.yields this keys) ->
  In key keys /\ WebStorage.proxy_get this (ToString key) = Return value.
Proof.
  induction keys as [|k keys IH]; simpl; [contradiction|].
  destruct (WebStorage.proxy_get this (ToString k)) as [v|e] eqn:Hget.
  - intros [Heq|Hin].
    + injection Heq as <- <-. auto.
    + destruct (IH Hin). auto.
  - intros [Heq|[]]. discriminate.
Qed.

(** X17. Over the in-memory store, a pair that an iterator yields with a
    value of the store is a key that [keys()] lists, no name of a member,
    with the value that [get(key)] returns; the two iterators yield the
    same. *)
Theorem iterator_values_are_get (this : WebStorage.t MemoryStorage.t)
        (items : list (completion (WebStorage.property V * option jsstring)))
        (value defaultValue : V) (key : jsstring) :
  WebStorage.iterator this = Return items ->
  In (Return (WebStorage.Stored value, Some key)) items ->
  WebStorage.get this key defaultValue = Return value /\
  WebStorage.key_in_target key = false /\
  (exists keys, WebStorage.keys this = Return keys /\ In (Some key) keys) /\
  WebStorage.asyncIterator this = Return items.
Proof.
  unfold WebStorage.iterator, WebStorage.asyncIterator.
  destruct (WebStorage.getStorageKeys this) as [keys|e] eqn:Hkeys; simpl; [|discriminate].
  intros H Hin. injection H as <-.
  apply yields_In in Hin as [Hlisted Hget].
  change (ToString (Some key)) with key in Hget.
  destruct (listed_key_in_store this keys key Hkeys Hlisted) as [text Htext].
  unfold WebStorage.proxy_get in Hget.
  unfold WebStorage.get.
  destruct (WebStorage.key_in_target key); [discriminate|].
  rewrite Htext in *.
  change (ToString (Some text)) with text in Hget.
  destruct (JSON.parse text) as [v|e]; [|discriminate].
  injection Hget as <-. repeat split. eauto.
Qed.

End IteratorValues.

Lemma iterator_values_are_get_witness :
  let items :=
    [Return (WebStorage.Stored (MiniJSON.JString (js "namespace value")),
             Some (js "nsSimpleKey"));
     Return (WebStorage.Stored (MiniJSON.JArray [MiniJSON.JBool true]),
             Some (js "nsObjectKey"))] in
  WebStorage.iterator Fixture.nsStorage = Return items /\
  WebStorage.get Fixture.nsStorage (js "nsObjectKey") MiniJSON.JNull
  = Return (MiniJSON.JArray [MiniJSON.JBool true]).
Proof.
  intro items.
  assert (H : WebStorage.iterator Fixture.nsStorage = Return items) by reflexivity.
  split; [exact H|].
  apply (iterator_values_are_get Fixture.nsStorage items
           (MiniJSON.JArray [MiniJSON.JBool true]) MiniJSON.JNull (js "nsObjectKey") H).
  right. left. reflexivity.
Defined.

(** ** The proxy of the facade *)

Section ProxyOfTheFacade.

Context {S : Type} {store : Storage.api S}
        {contract : StorageContract S} {frame : StorageFrame S}
        {V : Type} {json : JSON.codec V}.

Implicit Types (target : WebStorage.t S) (key : jsstring).

(** X18. For a name that is no member of the object, over a store that
    keeps what was set and a value the codec reads back: an assignment
    through the proxy writes what [set] writes, and afterwards [get], the
    [get] trap and the [has] trap all see the value. *)
Theorem proxy_and_methods_agree target key (value defaultValue : V) target' :
  WebStorage.key_in_target key = false ->
  lossless value ->
  WebStorageProxy.set target key value = Return (WebStorageProxy.Written target') ->
  WebStorage.set target key value = Return (true, target') /\
  WebStorage.get target' key defaultValue = Return value /\
  WebStorage.proxy_get target' key = Return (WebStorage.Stored value) /\
  WebStorageProxy.has target' key = true.
Proof.
  intros Hmember (text & Hwrite & Hread).
  unfold WebStorageProxy.set, WebStorage.set, WebStorage.get, WebStorage.proxy_get,
    WebStorageProxy.has.
  rewrite Hmember, Hwrite. simpl.
  destruct (Storage.setItem (WebStorage.storage target)
              (WebStorage.keyWithNamespace target key) text) as [storage'|e] eqn:Hstore;
    simpl; [|discriminate].
  intro H. injection H as <-.
  apply getItem_setItem in Hstore.
  change (WebStorage.keyWithNamespace (over target storage') key)
    with (WebStorage.keyWithNamespace target key).
  simpl. rewrite Hstore. simpl. rewrite Hread. auto.
Qed.

(** X19. The two ways of writing differ in their faults.  For a name that
    is no member, when [JSON.stringify] or [setItem] throws, the assignment
    through the proxy, which has no [catch], throws that exception, where
    the method [set] returns false. *)
Theorem proxy_set_propagates_faults target key (data : V) (e : exn) :
  WebStorage.key_in_target key = false ->
  (JSON.stringify data = Throw e ->
   WebStorageProxy.set target key data = Throw e /\
   WebStorage.set target key data = Return (false, target)) /\
  (forall text : jsstring,
      JSON.stringify data = Return text ->
      Storage.setItem (WebStorage.storage target)
                      (WebStorage.keyWithNamespace target key) text = Throw e ->
      WebStorageProxy.set target key data = Throw e /\
      WebStorage.set target key data = Return (false, target)).
Proof.
  intro Hmember. unfold WebStorageProxy.set, WebStorage.set. rewrite Hmember. simpl.
  split.
  - intros ->. split; reflexivity.
  - intros text -> Hstore. simpl. rewrite Hstore. split; reflexivity.
Qed.

(** X20. A name that is a member of the object never reaches the store
    through the proxy: [in] is true, reading gives the member, [delete]
    leaves the store as it is and an assignment does not write it, whatever
    the store holds under that name. *)
Theorem proxy_members_shadow_the_store target key :
  WebStorage.key_in_target key = true ->
  WebStorageProxy.has target key = true /\
  WebStorage.proxy_get (V := V) target key = Return (WebStorage.Member key) /\
  WebStorageProxy.deleteProperty target key = (true, target) /\
  (forall (data : V) target',
      WebStorageProxy.set target key data <> Return (WebStorageProxy.Written target')).
Proof.
  intro Hmember.
  unfold WebStorageProxy.has, WebStorage.proxy_get, WebStorageProxy.deleteProperty,
    WebStorageProxy.set.
  rewrite Hmember. simpl.
  split; [reflexivity|]. split; [reflexivity|]. split; [reflexivity|].
  intros data target'.
  match goal with |- (if ?c then _ else _) <> _ => destruct c end; discriminate.
Qed.

(** X21. [delete] through the proxy of a name that is no member does what
    the method [delete] does; afterwards [in] is false and reading the name
    gives what [JSON.parse] makes of the text [null]. *)
Theorem proxy_delete_then_absent target key :
  WebStorage.key_in_target key = false ->
  let target' := snd (WebStorageProxy.deleteProperty target key) in
  fst (WebStorageProxy.deleteProperty target key) = true /\
  WebStorage.delete target key = Return (true, target') /\
  WebStorageProxy.has target' key = false /\
  WebStorage.proxy_get (V := V) target' key
  = (value <- JSON.parse (js "null") ;; Return (WebStorage.Stored value)).
Proof.
  intro Hmember.
  unfold WebStorageProxy.deleteProperty, WebStorage.delete, WebStorageProxy.has,
    WebStorage.proxy_get.
  rewrite Hmember. simpl.
  change (WebStorage.keyWithNamespace (over target _) key)
    with (WebStorage.keyWithNamespace target key).
  simpl. rewrite getItem_removeItem. repeat split.
Qed.

End ProxyOfTheFacade.

Lemma proxy_and_methods_agree_witness :
  let target := WebStorage.constructor (MemoryStorage.constructor []) (Some (js "namespace")) in
  let target' := over target (MemoryStorage.constructor [(js "namespace/testKey", js "[1]")]) in
  let value := MiniJSON.JArray [MiniJSON.JNumber 1] in
  WebStorage.key_in_target (js "testKey") = false /\
  lossless value /\
  WebStorageProxy.set target (js "testKey") value = Return (WebStorageProxy.Written target') /\
  WebStorage.proxy_get target' (js "testKey") = Return (WebStorage.Stored value).
Proof.
  intros target target' value.
  assert (Hl : lossless value) by (exists (js "[1]"); split; reflexivity).
  assert (Hset : WebStorageProxy.set target (js "testKey") value
                 = Return (WebStorageProxy.Written target')) by reflexivity.
  split; [reflexivity|]. split; [exact Hl|]. split; [exact Hset|].
  apply (@proxy_and_methods_agree _ _ MemoryStorage_contract _ _ target (js "testKey")
           value MiniJSON.JNull target' eq_refl Hl Hset).
Defined.

Lemma proxy_set_propagates_faults_witness :
  let full := {| QuotaStorage.quota := 8; QuotaStorage.area := [] |} in
  let target := WebStorage.constructor full None in
  WebStorage.key_in_target (js "longValue") = false /\
  WebStorageProxy.set target (js "k") MiniJSON.JCircular = Throw TypeError /\
  WebStorageProxy.set target (js "longValue") (MiniJSON.JString (js "test data test data"))
  = Throw QuotaExceededError.
Proof.
  intros full target. split; [reflexivity|]. split.
  - apply (proj1 (@proxy_set_propagates_faults _ _ _ _ target (js "k")
                    MiniJSON.JCircular TypeError eq_refl)).
    reflexivity.
  - apply (proj2 (@proxy_set_propagates_faults _ _ _ _ target (js "longValue")
                    (MiniJSON.JString (js "test data test data"))
                    QuotaExceededError eq_refl)
                 (34%N :: js "test data test data" ++ [34%N]));
      reflexivity.
Defined.

Lemma proxy_members_shadow_the_store_witness :
  let target := WebStorage.constructor (MemoryStorage.constructor [(js "get", js "1")]) None in
  WebStorage.key_in_target (js "get") = true /\
  WebStorage.has target (js "get") = Return true /\
  WebStorage.proxy_get (V := MiniJSON.value) target (js "get")
  = Return (WebStorage.Member (js "get")) /\
  WebStorageProxy.deleteProperty target (js "get") = (true, target).
Proof.
  intro target.
  destruct (@proxy_members_shadow_the_store _ _ MiniJSON.value _ target (js "get") eq_refl)
    as (_ & Hget & Hdelete & _).
  split; [reflexivity|]. split; [reflexivity|]. split; [exact Hget|exact Hdelete].
Defined.

Lemma proxy_delete_then_absent_witness :
  let target := Fixture.storage in
  WebStorage.key_in_target (js "simpleKey") = false /\
  WebStorageProxy.has target (js "simpleKey") = true /\
  WebStorageProxy.has (snd (WebStorageProxy.deleteProperty target (js "simpleKey")))
                      (js "simpleKey") = false /\
  WebStorage.proxy_get (snd (WebStorageProxy.deleteProperty target (js "simpleKey")))
                       (js "simpleKey")
  = Return (WebStorage.Stored MiniJSON.JNull).
Proof.
  intro target.
  destruct (@proxy_delete_then_absent _ _ MemoryStorage_frame MiniJSON.value _
              target (js "simpleKey") eq_refl) as (_ & _ & Hhas & Hget).
  split; [reflexivity|]. split; [reflexivity|]. split; [exact Hhas|].
  rewrite Hget. reflexivity.
Defined.

(** ** The proxy of the in-memory store *)

Section ProxyOfTheMemoryStorage.

Import MemoryStorageProxy.

Implicit Types (target : object) (key data : jsstring).

Lemma fresh_well_formed_intact (s : MemoryStorage.t) :
  well_formed (fresh s) /\ intact (fresh s).
Proof. split; [constructor|reflexivity]. Qed.

Lemma set_keeps_well_formed target key data (result : bool) target' :
  well_formed target ->
  set target key data = Return (result, target') ->
  well_formed target'.
Proof.
  unfold well_formed, set. intro Hwf.
  destruct (key_in_target key) eqn:Hmember; cbn [negb].
  - destruct (existsb (jsstring_eqb key) getters); [discriminate|].
    destruct (jsstring_eqb key (js "__proto__")); intro H; injection H as <- <-;
      [exact Hwf|].
    simpl. constructor; [exact Hmember|exact Hwf].
  - destruct (call target (js "setItem") (MemoryStorage.setItem (store target) key data));
      simpl; [|discriminate].
    intro H. injection H as <- <-. exact Hwf.
Qed.

Lemma well_formed_not_assigned target key :
  well_formed target -> key_in_target key = false -> is_assigned target key = false.
Proof.
  unfold well_formed, is_assigned, assigned_value.
  induction 1 as [|[name value] rest Hname _ IH]; intro Hkey; simpl; [reflexivity|].
  destruct (jsstring_eqb name key) eqn:E; [|apply IH; exact Hkey].
  apply jsstring_eqb_eq in E. simpl in Hname. congruence.
Qed.

Lemma intact_call {A : Type} target (method : jsstring) (body : completion A) :
  intact target ->
  In method (List.map js ["getItem"; "setItem"; "hasItem"; "removeItem"]%string) ->
  call target method body = body.
Proof.
  unfold intact, call. simpl forallb. intros H Hin.
  repeat (apply andb_true_iff in H as [?Hm H]).
  simpl in Hin.
  destruct Hin as [<-|[<-|[<-|[<-|[]]]]];
    repeat match goal with
           | Hm : negb (is_assigned target ?m) = true |- _ =>
               apply negb_true_iff in Hm; rewrite ?Hm
           end; reflexivity.
Qed.

(** X22. Through the proxy of MemoryStorage, a name that is no member of
    the object is an item of the store, as long as no string was assigned
    in the place of the methods or of the map: reading is [getItem], [in]
    is [hasItem], an assignment is [setItem] and is read back, and after
    [delete] the name reads null and [in] is false.  That holds of the
    proxy the constructor returns. *)
Theorem MemoryStorage_proxy_items target key data :
  well_formed target ->
  intact target ->
  key_in_target key = false ->
  get target key = Return (Item (MemoryStorage.getItem (store target) key)) /\
  has target key = Return (MemoryStorage.hasItem (store target) key) /\
  (exists target',
      set target key data = Return (true, target') /\
      MemoryStorage.setItem (store target) key data = Return (store target') /\
      assigned target' = assigned target /\
      get target' key = Return (Item (Some data)) /\
      has target' key = Return true) /\
  (exists target',
      deleteProperty target key = Return (true, target') /\
      store target' = MemoryStorage.removeItem (store target) (Some key) /\
      assigned target' = assigned target /\
      get target' key = Return (Item None) /\
      has target' key = Return false).
Proof.
  intros Hwf Hintact Hmember.
  pose proof (well_formed_not_assigned target key Hwf Hmember) as Hkey.
  assert (Hcall : forall (A : Type) (store' : MemoryStorage.t) (method : jsstring)
                         (body : completion A),
             In method (List.map js ["getItem"; "setItem"; "hasItem"; "removeItem"]%string) ->
             call {| store := store'; assigned := assigned target |} method body = body).
  { intros A store' method body Hin. apply intact_call; [exact Hintact|exact Hin]. }
  assert (Hown : is_assigned target (js "hasOwnProperty") = false).
  { unfold intact in Hintact. simpl forallb in Hintact.
    repeat (apply andb_true_iff in Hintact as [?Hm Hintact]).
    apply negb_true_iff. assumption. }
  assert (Hnot_own : hasOwnProperty target key = false).
  { unfold hasOwnProperty. rewrite Hkey, orb_false_r.
    apply jsstring_eqb_neq. intros ->. discriminate. }
  unfold get, has, set, deleteProperty. rewrite Hmember, Hown. simpl.
  rewrite Hnot_own. simpl.
  rewrite !(intact_call target _ _ Hintact) by (simpl; tauto). simpl.
  split; [reflexivity|]. split; [reflexivity|]. split.
  - eexists. split; [reflexivity|]. simpl.
    rewrite !Hcall by (simpl; tauto). simpl.
    unfold MemoryStorage.hasItem. rewrite getItem_Map_get, Map_has_get. simpl.
    rewrite Map_get_set_same. repeat split.
  - eexists. split; [reflexivity|]. simpl.
    rewrite !Hcall by (simpl; tauto). simpl.
    unfold MemoryStorage.hasItem. rewrite getItem_Map_get, Map_has_get. simpl.
    rewrite Map_get_delete_same. repeat split.
Qed.


End ProxyOfTheMemoryStorage.

Lemma MemoryStorage_proxy_items_witness :
  let target := MemoryStorageProxy.fresh (MemoryStorage.constructor []) in
  let target' :=
    MemoryStorageProxy.fresh (MemoryStorage.constructor [(js "anyKey", js "any value")]) in
  MemoryStorageProxy.well_formed target /\
  MemoryStorageProxy.intact target /\
  MemoryStorageProxy.key_in_target (js "anyKey") = false /\
  MemoryStorageProxy.set target (js "anyKey") (js "any value") = Return (true, target') /\
  MemoryStorageProxy.get target' (js "anyKey")
  = Return (MemoryStorageProxy.Item (Some (js "any value"))).
Proof.
  intros target target'.
  destruct (fresh_well_formed_intact (MemoryStorage.constructor [])) as [Hwf Hintact].
  destruct (MemoryStorage_proxy_items target (js "anyKey") (js "any value")
              Hwf Hintact eq_refl)
    as (_ & _ & (t & Hset & _ & _ & Hget & _) & _).
  injection Hset as <-.
  split; [exact Hwf|]. split; [exact Hintact|]. split; [reflexivity|].
  split; [reflexivity|exact Hget].
Defined.

